(** * Vote_system: the voter verification and vote submission core

    A shallow embedding of [server/index.js]: voter keys, the rate limiter,
    the in-memory session maps, the JSON data files and the two request
    handlers [/api/check-voter] and [/api/vote], together with the timer
    and sweeper callbacks that expire sessions and the administrator's
    settings and reset routes. The second server file of the repository
    differs in the fields of the verification form (no date of birth) and
    in the rate limit (50 requests a minute); its key function and limit
    are given beside the first one's.

    A handler is written once, as a tree of synchronous steps and awaited
    file operations, and run in two ways: alone from request to response
    ([exec]), and in flight with other handlers, interleaved at its
    [await]s ([move]).

    Conventions.
    - JavaScript strings are modelled by [string]; the model covers ASCII
      text (on it [String.length] is the JS [length], and the UTF-8 bytes
      hashed by SHA-256 are the characters themselves).
    - JavaScript numbers that hold counters and millisecond clocks are [Z].
    - A JS [Map] or a JS object used as a dictionary is a [gmap].
    - An absent property ([undefined]) of a request body and the empty
      string are both falsy; a lookup that misses yields [""]. The
      properties of a request body are strings; the session token of a
      submission may also be of another JSON type ([VoteRequest]).
    - A tally is a plain object: the [gmap] holds its own properties, and
      [inherited] what a name finds on [Object.prototype] otherwise.
    - A write that fails leaves its file untouched, cut or written
      ([Failure]). *)

From Stdlib Require Import ZArith List String Ascii Lia Bool.
From stdpp Require Import base gmap strings list pretty.

Local Open Scope string_scope.
Local Open Scope Z_scope.

(** ** JavaScript string primitives (ASCII) *)

Module Js.

Definition code (c : ascii) : Z := Z.of_nat (nat_of_ascii c).

Definition is_upper (c : ascii) : bool := (65 <=? code c) && (code c <=? 90).
Definition is_lower (c : ascii) : bool := (97 <=? code c) && (code c <=? 122).

(** White space as [String.prototype.trim] and the regex class [\s] see
    it on ASCII: TAB, LF, VT, FF, CR and SPACE. *)
Definition is_space (c : ascii) : bool :=
  ((9 <=? code c) && (code c <=? 13)) || (code c =? 32).

Definition lower_char (c : ascii) : ascii :=
  if is_upper c then ascii_of_nat (nat_of_ascii c + 32) else c.
Definition upper_char (c : ascii) : ascii :=
  if is_lower c then ascii_of_nat (nat_of_ascii c - 32) else c.

Fixpoint map_chars (f : ascii -> ascii) (s : string) : string :=
  match s with
  | EmptyString => EmptyString
  | String c r => String (f c) (map_chars f r)
  end.

Definition toLowerCase : string -> string := map_chars lower_char.
Definition toUpperCase : string -> string := map_chars upper_char.

Fixpoint all_chars (p : ascii -> bool) (s : string) : bool :=
  match s with
  | EmptyString => true
  | String c r => p c && all_chars p r
  end.

Fixpoint trimStart (s : string) : string :=
  match s with
  | EmptyString => EmptyString
  | String c r => if is_space c then trimStart r else s
  end.

(** [trimEnd] drops a character when it is white space and everything
    after it has been dropped too. *)
Fixpoint trimEnd (s : string) : string :=
  match s with
  | EmptyString => EmptyString
  | String c r =>
      match trimEnd r with
      | EmptyString => if is_space c then EmptyString else String c EmptyString
      | r' => String c r'
      end
  end.

Definition trim (s : string) : string := trimEnd (trimStart s).

(** [s.substring(0, n)] *)
Fixpoint prefix (n : nat) (s : string) : string :=
  match n, s with
  | S n', String c r => String c (prefix n' r)
  | _, _ => EmptyString
  end.

Definition len (s : string) : Z := Z.of_nat (String.length s).

(** Truthiness of a string value: [!s] is [true] exactly on [""]. *)
Definition truthy (s : string) : bool :=
  match s with EmptyString => false | _ => true end.

End Js.

(** ** SHA-256 (FIPS 180-4), as computed by
       [crypto.createHash('sha256').update(s).digest('hex')] *)

Module Sha256.

Definition w32 (x : Z) : Z := x mod 4294967296.
Definition add32 (x y : Z) : Z := w32 (x + y).
Definition rotr (n x : Z) : Z := Z.lor (Z.shiftr x n) (w32 (Z.shiftl x (32 - n))).
Definition not32 (x : Z) : Z := Z.lxor x 4294967295.

Definition Ch (x y z : Z) : Z := Z.lxor (Z.land x y) (Z.land (not32 x) z).
Definition Maj (x y z : Z) : Z :=
  Z.lxor (Z.lxor (Z.land x y) (Z.land x z)) (Z.land y z).
Definition bsig0 (x : Z) : Z := Z.lxor (Z.lxor (rotr 2 x) (rotr 13 x)) (rotr 22 x).
Definition bsig1 (x : Z) : Z := Z.lxor (Z.lxor (rotr 6 x) (rotr 11 x)) (rotr 25 x).
Definition ssig0 (x : Z) : Z := Z.lxor (Z.lxor (rotr 7 x) (rotr 18 x)) (Z.shiftr x 3).
Definition ssig1 (x : Z) : Z := Z.lxor (Z.lxor (rotr 17 x) (rotr 19 x)) (Z.shiftr x 10).

(** The constants are defined as the standard defines them (sections
    4.2.2 and 5.3.3): the first 32 bits of the fractional parts of the cube
    roots of the first 64 primes, and of the square roots of the first 8. *)
Definition is_prime (n : nat) : bool :=
  forallb (fun d => negb (Nat.eqb (Nat.modulo n d) 0)) (seq 2 (n - 2)).

Definition primes : list Z :=
  map Z.of_nat (List.filter is_prime (seq 2 310)).

(** The integer cube root of [n], built bit by bit from bit [bits - 1]
    down. *)
Fixpoint cube_root (bits : nat) (n r : Z) : Z :=
  match bits with
  | O => r
  | S b =>
      let c := r + 2 ^ Z.of_nat b in
      cube_root b n (if c * c * c <=? n then c else r)
  end.

Definition K : list Z :=
  Eval vm_compute in map (fun p => w32 (cube_root 36 (p * 2 ^ 96) 0)) primes.

Definition H0 : list Z :=
  Eval vm_compute in map (fun p => w32 (Z.sqrt (p * 2 ^ 64))) (firstn 8 primes).

(** Big-endian bytes of [x], [n] of them. *)
Fixpoint be_bytes (n : nat) (x : Z) : list Z :=
  match n with
  | O => []
  | S n' => be_bytes n' (Z.shiftr x 8) ++ [Z.land x 255]
  end.

(** Padding: the bit [1], zeros up to 56 modulo 64 bytes, then the
    message length in bits on 64 bits. *)
Definition pad (msg : list Z) : list Z :=
  let l := Z.of_nat (length msg) in
  let zeros := Z.to_nat ((55 - l) mod 64) in
  msg ++ [128] ++ repeat 0 zeros ++ be_bytes 8 (8 * l).

Fixpoint words (n : nat) (bs : list Z) : list Z :=
  match n, bs with
  | S n', b0 :: b1 :: b2 :: b3 :: r =>
      (b0 * 16777216 + b1 * 65536 + b2 * 256 + b3) :: words n' r
  | _, _ => []
  end.

Definition at_ (i : nat) (l : list Z) : Z := nth i l 0.

(** The message schedule, most recent word first: [rw] holds
    [W(t-1), W(t-2), ...]. *)
Fixpoint extend (n : nat) (rw : list Z) : list Z :=
  match n with
  | O => rw
  | S n' =>
      let wt := add32 (add32 (ssig1 (at_ 1 rw)) (at_ 6 rw))
                      (add32 (ssig0 (at_ 14 rw)) (at_ 15 rw)) in
      extend n' (wt :: rw)
  end.

Definition schedule (block : list Z) : list Z :=
  rev (extend 48 (rev (words 16 block))).

Definition round (st : list Z) (kw : Z * Z) : list Z :=
  match st with
  | [a; b; c; d; e; f; g; h] =>
      let t1 := add32 (add32 (add32 h (bsig1 e)) (add32 (Ch e f g) (fst kw))) (snd kw) in
      let t2 := add32 (bsig0 a) (Maj a b c) in
      [add32 t1 t2; a; b; c; add32 d t1; e; f; g]
  | _ => st
  end.

Fixpoint zip_add (xs ys : list Z) : list Z :=
  match xs, ys with
  | x :: xs', y :: ys' => add32 x y :: zip_add xs' ys'
  | _, _ => []
  end.

Definition compress (h : list Z) (block : list Z) : list Z :=
  zip_add h (fold_left round (combine K (schedule block)) h).

Fixpoint blocks (n : nat) (h : list Z) (bs : list Z) : list Z :=
  match n with
  | O => h
  | S n' => blocks n' (compress h (firstn 64 bs)) (skipn 64 bs)
  end.

Definition digest (msg : list Z) : list Z :=
  let p := pad msg in
  blocks (length p / 64)%nat H0 p.

Definition hex_digit (d : Z) : ascii :=
  ascii_of_nat (Z.to_nat (if d <? 10 then 48 + d else 87 + d)).

Fixpoint hex_bytes (bs : list Z) : string :=
  match bs with
  | [] => EmptyString
  | b :: r => String (hex_digit (Z.shiftr b 4))
                (String (hex_digit (Z.land b 15)) (hex_bytes r))
  end.

Fixpoint bytes_of (s : string) : list Z :=
  match s with
  | EmptyString => []
  | String c r => Js.code c :: bytes_of r
  end.

Definition hex (s : string) : string :=
  hex_bytes (flat_map (be_bytes 4) (digest (bytes_of s))).

End Sha256.

(** ** Voter identity *)

(** [generateVoterKey] of [server/index.js]: the raw key is
    [`${name.toLowerCase().trim()}_${studentClass.trim()}_${division.trim()}_${dateOfBirth}`]. *)
Definition generateVoterKey (name studentClass division dateOfBirth : string) : string :=
  let rawKey :=
    Js.trim (Js.toLowerCase name) +:+ "_" +:+ Js.trim studentClass +:+ "_"
      +:+ Js.trim division +:+ "_" +:+ dateOfBirth in
  Sha256.hex rawKey.

(** The variant of the deployment without a date of birth (three fields). *)
Definition generateVoterKey3 (name studentClass division : string) : string :=
  let rawKey :=
    Js.trim (Js.toLowerCase name) +:+ "_" +:+ Js.trim studentClass +:+ "_"
      +:+ Js.trim division in
  Sha256.hex rawKey.

(** ** Data model *)

(** A JSON value as the roll entries hold them. [JDate ms] stands for the
    ISO string of the instant [ms]. *)
Inductive JVal : Type :=
| JStr (s : string)
| JNull
| JDate (ms : Z).

#[global] Instance JVal_eq_dec : EqDecision JVal.
Proof. solve_decision. Defined.

(** The body of a verification request is kept whole in the session
    ([const voterInfo = req.body]), so it is a JSON object and not a record:
    any property the client sent is in it. Its values are strings here:
    the model covers the forms whose fields are strings, and leaves out the
    bodies that carry a number, a boolean, an array or an object under one
    of these names. *)
Abbreviation Body := (gmap string string).
Abbreviation Student := (gmap string JVal).

Definition prop (o : Body) (k : string) : string := default "" (o !! k).

(** What a tally holds under a name: a count, or a string, which is what
    [x + 1] gives once [x] is not a number. *)
Inductive TVal : Type :=
| Num (n : Z)
| Str (s : string).

#[global] Instance TVal_eq_dec : EqDecision TVal.
Proof. solve_decision. Defined.

(** The tallies are plain objects: the maps hold their own properties. *)
Record Votes : Type := mkVotes {
  headBoy : gmap string TVal;
  headGirl : gmap string TVal;
  sportsCaptain : gmap string TVal;
  sportsViceCaptain : gmap string TVal
}.

Definition emptyVotes : Votes := mkVotes ∅ ∅ ∅ ∅.

Module Session.
Record t : Type := mk {
  voterKey : string;
  voterInfo : Body;
  timestamp : Z;
  verified : bool
}.
End Session.

Module RateEntry.
Record t : Type := mk { count : Z; resetTime : Z }.
End RateEntry.

(** The process-wide maps, and the callbacks registered with [setTimeout]
    that have not run yet (the instant each is due, the token it deletes). *)
Record Mem : Type := mkMem {
  votingSessions : gmap string Z;          (* voterKey -> { timestamp } *)
  verifiedSessions : gmap string Session.t;  (* sessionToken -> session *)
  rateLimitMap : gmap string RateEntry.t;    (* clientIP -> window *)
  timers : list (Z * string)
}.

Definition emptyMem : Mem := mkMem ∅ ∅ ∅ [].

Definition set_votingSessions (f : gmap string Z -> gmap string Z) (m : Mem) : Mem :=
  mkMem (f (votingSessions m)) (verifiedSessions m) (rateLimitMap m) (timers m).
Definition set_verifiedSessions
    (f : gmap string Session.t -> gmap string Session.t) (m : Mem) : Mem :=
  mkMem (votingSessions m) (f (verifiedSessions m)) (rateLimitMap m) (timers m).
Definition set_rateLimitMap
    (f : gmap string RateEntry.t -> gmap string RateEntry.t) (m : Mem) : Mem :=
  mkMem (votingSessions m) (verifiedSessions m) (f (rateLimitMap m)) (timers m).
Definition set_timers (f : list (Z * string) -> list (Z * string)) (m : Mem) : Mem :=
  mkMem (votingSessions m) (verifiedSessions m) (rateLimitMap m) (f (timers m)).

Definition has {V : Type} (m : gmap string V) (k : string) : bool :=
  match m !! k with Some _ => true | None => false end.

(** ** The JSON data files *)

Inductive File : Type := settingsFile | studentsFile | votesFile.

#[global] Instance File_eq_dec : EqDecision File.
Proof. solve_decision. Defined.

(** What a data file parses to. The settings object is [{ votingEnabled }],
    read only for the truthiness of that property. *)
Definition content (f : File) : Type :=
  match f with
  | settingsFile => bool
  | studentsFile => list Student
  | votesFile => Votes
  end.

(** What a failing [fs.writeFile] leaves of the file. It opens the file
    for writing, which empties it, writes the text and closes the file:
    the failure comes before the file is opened, or in the middle, which
    leaves a file that is cut and parses no more, or after the text has
    been written. *)
Inductive Failure : Type :=
| Untouched
| Damaged
| Written.

(** A file that cannot be read or parsed is [None] ([readJsonFile] then
    returns [null]); a file that [failing] maps to a failure rejects writes
    ([writeJsonFile] then returns [false]) and is left as the failure
    says. *)
Record Disk : Type := mkDisk {
  settings : option bool;
  students : option (list Student);
  votes : option Votes;
  failing : File -> option Failure
}.

Definition read (f : File) (d : Disk) : option (content f) :=
  match f with
  | settingsFile => settings d
  | studentsFile => students d
  | votesFile => votes d
  end.

Definition store (f : File) : content f -> Disk -> Disk :=
  match f with
  | settingsFile => fun x d => mkDisk (Some x) (students d) (votes d) (failing d)
  | studentsFile => fun x d => mkDisk (settings d) (Some x) (votes d) (failing d)
  | votesFile => fun x d => mkDisk (settings d) (students d) (Some x) (failing d)
  end.

Definition damage (f : File) (d : Disk) : Disk :=
  match f with
  | settingsFile => mkDisk None (students d) (votes d) (failing d)
  | studentsFile => mkDisk (settings d) None (votes d) (failing d)
  | votesFile => mkDisk (settings d) (students d) None (failing d)
  end.

Definition write (f : File) (x : content f) (d : Disk) : bool * Disk :=
  match failing d f with
  | None => (true, store f x d)
  | Some Untouched => (false, d)
  | Some Damaged => (false, damage f d)
  | Some Written => (false, store f x d)
  end.

(** The asynchronous operations a handler awaits. *)
Inductive IO : Type -> Type :=
| readJsonFile (f : File) : IO (option (content f))
| writeJsonFile (f : File) (data : content f) : IO bool.

Definition perform {X : Type} (io : IO X) (d : Disk) : X * Disk :=
  match io with
  | readJsonFile f => (read f d, d)
  | writeJsonFile f x => write f x d
  end.

(** ** Handlers as resumable jobs

    A handler is a tree of synchronous steps on the in-memory maps
    ([Atomic], which also sees the clock) and of awaited file operations
    ([Await]). Everything between two [Await]s runs without interruption,
    as on the Node.js event loop; at an [Await] other handlers may run. *)
Inductive Job (A : Type) : Type :=
| Ret (a : A)
| Throw
| Atomic {X : Type} (act : Z -> Mem -> X * Mem) (k : X -> Job A)
| Await {X : Type} (io : IO X) (k : X -> Job A).

Arguments Ret {A} a.
Arguments Throw {A}.
Arguments Atomic {A X} act k.
Arguments Await {A X} io k.

(** [try { p } catch { h }] *)
Fixpoint try_catch {A : Type} (p : Job A) (h : Job A) : Job A :=
  match p with
  | Ret a => Ret a
  | Throw => h
  | Atomic act k => Atomic act (fun x => try_catch (k x) h)
  | Await io k => Await io (fun x => try_catch (k x) h)
  end.

Notation "'sync' x <- act 'in' k" := (Atomic act (fun x => k))
  (at level 10, x pattern, act at level 100, k at level 200).
Notation "'await' x <- io 'in' k" := (Await io (fun x => k))
  (at level 10, x pattern, io at level 100, k at level 200).

Definition get {X : Type} (f : Mem -> X) : Z -> Mem -> X * Mem :=
  fun _ m => (f m, m).
Definition upd (f : Mem -> Mem) : Z -> Mem -> unit * Mem :=
  fun _ m => (tt, f m).
Definition Date_now : Z -> Mem -> Z * Mem :=
  fun now m => (now, m).
(** [setTimeout(() => verifiedSessions.delete(token), delay)] *)
Definition setTimeout (token : string) (delay : Z) : Z -> Mem -> unit * Mem :=
  fun now m => (tt, set_timers (fun l => (l ++ [(now + delay, token)])%list) m).

(** ** Responses *)

Module Res.
Record t : Type := mk {
  status : Z;
  success : bool;
  hasVoted : option bool;
  sessionToken : option string;
  message : string
}.
End Res.

Definition json (status : Z) (success : bool) (message : string) : Res.t :=
  Res.mk status success None None message.

(** The outcomes the specification names, as the server words them. *)
Definition RateLimited : Res.t :=
  json 429 false "Too many requests. Please wait a moment before trying again.".
Definition AlreadyVoted : Res.t :=
  Res.mk 200 false (Some true) None "This student has already voted".
Definition SessionInProgress : Res.t :=
  Res.mk 200 false (Some true) None "Voting session already in progress for this student".
Definition Verified (sessionToken : string) : Res.t :=
  Res.mk 200 true (Some false) (Some sessionToken) "Verification successful".
Definition VerificationFailed : Res.t :=
  json 500 false "Verification failed. Please try again.".
Definition VotingDisabled : Res.t :=
  json 400 false "Voting is currently disabled".
Definition SessionExpired : Res.t :=
  json 401 false "Invalid or expired session. Please verify again.".
Definition VoteAlreadyRecorded : Res.t :=
  json 400 false "Vote already recorded for this student".
Definition SubmissionInProgress : Res.t :=
  json 400 false "Vote submission already in progress".
Definition NoSelection : Res.t :=
  json 400 false "Please select at least one candidate".
Definition VoteRecorded : Res.t :=
  json 200 true "Vote recorded successfully".
Definition CommitFailed : Res.t :=
  json 500 false "Error recording vote".

(** ** Rate limiter *)

(** The [rateLimit] middleware for a window of [windowMs] milliseconds and
    [maxRequests] requests: the client's entry after the request, and
    whether [next()] is called. *)
Definition rateLimitWith (windowMs maxRequests : Z) (clientIP : string) (now : Z)
    (rl : gmap string RateEntry.t) : bool * gmap string RateEntry.t :=
  match rl !! clientIP with
  | None =>
      (true, <[clientIP := RateEntry.mk 1 (now + windowMs)]> rl)
  | Some clientData =>
      if now >? RateEntry.resetTime clientData then
        (true, <[clientIP := RateEntry.mk 1 (now + windowMs)]> rl)
      else if RateEntry.count clientData >=? maxRequests then
        (false, rl)
      else
        (true, <[clientIP := RateEntry.mk (RateEntry.count clientData + 1)
                                          (RateEntry.resetTime clientData)]> rl)
  end.

(** [server/index.js] admits 20 requests a minute, the other deployment 50. *)
Definition rateLimit : string -> Z -> gmap string RateEntry.t -> bool * gmap string RateEntry.t :=
  rateLimitWith 60000 20.
Definition rateLimit50 : string -> Z -> gmap string RateEntry.t -> bool * gmap string RateEntry.t :=
  rateLimitWith 60000 50.

(** [req.ip || req.connection.remoteAddress || 'unknown'] *)
Definition clientIP_of (ip remoteAddress : string) : string :=
  if Js.truthy ip then ip else if Js.truthy remoteAddress then remoteAddress else "unknown".

(** A route behind the middleware. *)
Definition limited (clientIP : string) (next : Job Res.t) : Job Res.t :=
  sync admitted <- (fun now m =>
      let '(ok, rl) := rateLimit clientIP now (rateLimitMap m) in
      (ok, set_rateLimitMap (fun _ => rl) m)) in
  if admitted then next else Ret RateLimited.

(** ** Validation of the verification form *)

(** [new Date(s).getTime()]: the instant a date string denotes, [None] for
    an invalid date. The parser is the JavaScript engine's. *)
Class JsDate : Type := Date_parse : string -> option Z.

Module Validation.
Record t : Type := mk { valid : bool; message : string }.
End Validation.

Definition invalid (message : string) : Validation.t := Validation.mk false message.

(** [/^[a-zA-Z\s\-'.]+$/] *)
Definition name_char (c : ascii) : bool :=
  Js.is_upper c || Js.is_lower c || Js.is_space c
  || (Js.code c =? 45) || (Js.code c =? 39) || (Js.code c =? 46).
Definition name_regex (s : string) : bool := Js.truthy s && Js.all_chars name_char s.

(** Milliseconds in the year of 365.25 days the age is divided by. *)
Definition yearMs : Z := 1000 * 60 * 60 * 24 * 36525 / 100.

Definition validateVoterInfo `{JsDate} (now : Z) (voterInfo : Body) : Validation.t :=
  let name := prop voterInfo "name" in
  let studentClass := prop voterInfo "class" in
  let division := prop voterInfo "division" in
  let dateOfBirth := prop voterInfo "dateOfBirth" in
  if negb (Js.truthy name) || negb (Js.truthy studentClass)
     || negb (Js.truthy division) || negb (Js.truthy dateOfBirth) then
    invalid "All fields are required"
  else
  let cleanName := Js.trim name in
  if negb (Js.truthy cleanName) || (Js.len cleanName <? 2) || (Js.len cleanName >? 100) then
    invalid "Name must be between 2-100 characters"
  else if negb (name_regex cleanName) then
    invalid "Name can only contain letters, spaces, hyphens, apostrophes, and dots"
  else
  let cleanClass := Js.toUpperCase (Js.trim studentClass) in
  if negb (Js.truthy cleanClass) || (Js.len cleanClass >? 10) then
    invalid "Class field is required and must be under 10 characters"
  else
  let cleanDivision := Js.toUpperCase (Js.trim division) in
  if negb (Js.truthy cleanDivision) || (Js.len cleanDivision >? 5) then
    invalid "Division field is required and must be under 5 characters"
  else
  match Date_parse dateOfBirth with
  | None => invalid "Please enter a valid date of birth"
  | Some dob =>
      (* age = (now - dob) / yearMs; age < 3 || age > 30 *)
      if (now - dob <? 3 * yearMs) || (now - dob >? 30 * yearMs) then
        invalid "Age must be between 3-30 years for school students"
      else if dob >? now then
        invalid "Date of birth cannot be in the future"
      else Validation.mk true ""
  end.

(** ** The roll and the tally *)

(** [students.some(student => student.voterKey === voterKey)] *)
Definition hasVoted (students : list Student) (voterKey : string) : bool :=
  existsb (fun student => bool_decide (student !! "voterKey" = Some (JStr voterKey))) students.

Module VoteBody.
(** The properties [/api/vote] reads from its body; [""] is an absent,
    [null] or empty one. *)
Record t : Type := mk {
  sessionToken : string;
  headBoyVote : string;
  headGirlVote : string;
  sportsCaptainVote : string;
  sportsViceCaptainVote : string
}.
End VoteBody.

(** The body of a request to [/api/vote]. The handler first evaluates
    [sessionToken?.substring(0, 8)], which a string, [null] and an absent
    property pass; on a token of another JSON type (a number, a boolean,
    an array, an object) it throws, and nothing else of the body is
    read. *)
Inductive VoteRequest : Type :=
| WithToken (b : VoteBody.t)
| TokenNotString.

Coercion WithToken : VoteBody.t >-> VoteRequest.

(** What an object without an own property [name] finds under that name:
    every object inherits from [Object.prototype] the accessor [__proto__]
    and eleven built-in functions, and a function turns into its source
    text when a number is added to it. *)
Inductive Inherited : Type :=
| Proto
| Builtin (source : string).

Definition builtins : list string :=
  ["constructor"; "__defineGetter__"; "__defineSetter__"; "hasOwnProperty";
   "__lookupGetter__"; "__lookupSetter__"; "isPrototypeOf"; "propertyIsEnumerable";
   "toString"; "valueOf"; "toLocaleString"].

Definition inherited (name : string) : option Inherited :=
  if bool_decide (name = "__proto__") then Some Proto
  else if bool_decide (name = "constructor") then
    Some (Builtin "function Object() { [native code] }")
  else if bool_decide (name ∈ builtins) then
    Some (Builtin ("function " +:+ name +:+ "() { [native code] }"))
  else None.

(** [(x || 0) + 1] for an own value [x]: the number zero and the empty
    string are falsy, and a string with a number added is the string
    followed by the number's digits. *)
Definition plusOne (x : TVal) : TVal :=
  match x with
  | Num n => Num (n + 1)
  | Str s => if Js.truthy s then Str (s +:+ "1") else Num 1
  end.

(** [votes.position[name] = (votes.position[name] || 0) + 1], under
    [if (name)]. An own property is read and replaced. Without one the
    read goes to [Object.prototype]: a name it does not have reads
    [undefined] and is created at 1; [__proto__] reads an object, and the
    assignment of the resulting string to [__proto__] is ignored; a
    built-in function reads as the function, and its source text followed
    by "1" is stored. *)
Definition credit (name : string) (tally : gmap string TVal) : gmap string TVal :=
  if Js.truthy name then
    match tally !! name with
    | Some x => <[name := plusOne x]> tally
    | None =>
        match inherited name with
        | None => <[name := Num 1]> tally
        | Some Proto => tally
        | Some (Builtin source) => <[name := Str (source +:+ "1")]> tally
        end
    end
  else tally.

Definition recordVotes (b : VoteBody.t) (v : Votes) : Votes :=
  mkVotes (credit (VoteBody.headBoyVote b) (headBoy v))
          (credit (VoteBody.headGirlVote b) (headGirl v))
          (credit (VoteBody.sportsCaptainVote b) (sportsCaptain v))
          (credit (VoteBody.sportsViceCaptainVote b) (sportsViceCaptain v)).

(** [name || null] *)
Definition orNull (name : string) : JVal :=
  if Js.truthy name then JStr name else JNull.

(** The object pushed on the roll:
    [{ voterKey, ...voterInfo, votedAt, headBoyVote, ..., sessionToken }].
    Properties are set from left to right, a later one replacing an earlier
    one of the same name; the spread of [voterInfo] comes after
    [voterKey]. *)
Definition rollEntry (voterKey : string) (voterInfo : Body) (now : Z) (b : VoteBody.t)
    : Student :=
  let o0 : Student := {[ "voterKey" := JStr voterKey ]} in
  let o1 : Student := (JStr <$> voterInfo) ∪ o0 in
  <["sessionToken" := JStr (Js.prefix 8 (VoteBody.sessionToken b))]>
  (<["sportsViceCaptainVote" := orNull (VoteBody.sportsViceCaptainVote b)]>
  (<["sportsCaptainVote" := orNull (VoteBody.sportsCaptainVote b)]>
  (<["headGirlVote" := orNull (VoteBody.headGirlVote b)]>
  (<["headBoyVote" := orNull (VoteBody.headBoyVote b)]>
  (<["votedAt" := JDate now]> o1))))).

Definition noSelection (b : VoteBody.t) : bool :=
  negb (Js.truthy (VoteBody.headBoyVote b)) && negb (Js.truthy (VoteBody.headGirlVote b))
  && negb (Js.truthy (VoteBody.sportsCaptainVote b))
  && negb (Js.truthy (VoteBody.sportsViceCaptainVote b)).

(** ** POST /api/check-voter *)

Definition sessionTimeout : Z := 10 * 60 * 1000.

(** [fresh] is what [generateSessionToken()] returns on this request (32
    random bytes in hexadecimal). *)
Definition check_voter `{JsDate} (fresh : string) (voterInfo : Body) : Job Res.t :=
  try_catch
    (sync today <- Date_now in
     let validation := validateVoterInfo today voterInfo in
     if negb (Validation.valid validation) then
       Ret (json 400 false (Validation.message validation))
     else
     let voterKey := generateVoterKey (prop voterInfo "name") (prop voterInfo "class")
                       (prop voterInfo "division") (prop voterInfo "dateOfBirth") in
     (* Check if already voted in database *)
     await students <- readJsonFile studentsFile in
     match students with
     | None => Throw                         (* null.some(...) *)
     | Some students =>
         if hasVoted students voterKey then Ret AlreadyVoted
         else
         (* Check if currently in a voting session *)
         sync inSession <- get (fun m => has (votingSessions m) voterKey) in
         if inSession then Ret SessionInProgress
         else
         (* Create verification session *)
         let sessionToken := fresh in
         sync now <- Date_now in
         sync _ <- upd (set_verifiedSessions
                     (insert sessionToken (Session.mk voterKey voterInfo now true))) in
         (* Auto-expire session after 10 minutes *)
         sync _ <- setTimeout sessionToken sessionTimeout in
         Ret (Verified sessionToken)
     end)
    (Ret VerificationFailed).

(** ** POST /api/vote *)

(** Lines 588 to 640: the lock is taken, then the [try] block reads the
    tally, credits the selections, pushes the roll entry and writes both
    files; its [catch] removes the lock and rethrows. The block is entered
    with at least one selection made, so a tally that reads as [null]
    throws at the first credit. *)
Definition commit_attempt (b : VoteBody.t) (voterKey : string) (voterInfo : Body)
    (students : list Student) : Job Res.t :=
  (* Mark as currently voting to prevent concurrent submissions *)
  sync now <- Date_now in
  sync _ <- upd (set_votingSessions (insert voterKey now)) in
  try_catch
    (await votes <- readJsonFile votesFile in
     match votes with
     | None => Throw
     | Some votes =>
         let votes := recordVotes b votes in
         (* Add student to voted list *)
         sync votedAt <- Date_now in
         let students := (students ++ [rollEntry voterKey voterInfo votedAt b])%list in
         (* Save both files atomically *)
         await votesSuccess <- writeJsonFile votesFile votes in
         await studentsSuccess <- writeJsonFile studentsFile students in
         if votesSuccess && studentsSuccess then
           (* Clean up sessions *)
           sync _ <- upd (set_verifiedSessions (delete (VoteBody.sessionToken b))) in
           sync _ <- upd (set_votingSessions (delete voterKey)) in
           Ret VoteRecorded
         else Throw
     end)
    ((* Remove from voting sessions on error *)
     sync _ <- upd (set_votingSessions (delete voterKey)) in
     Throw).

Definition vote (request : VoteRequest) : Job Res.t :=
  try_catch
    (match request with
     | TokenNotString => Throw               (* sessionToken?.substring(0, 8) *)
     | WithToken b =>
     let sessionToken := VoteBody.sessionToken b in
     (* Check if voting is enabled *)
     await settings <- readJsonFile settingsFile in
     match settings with
     | None => Throw                         (* null.votingEnabled *)
     | Some votingEnabled =>
         if negb votingEnabled then Ret VotingDisabled
         else
         (* Validate session token *)
         sync known <- get (fun m => Js.truthy sessionToken
                                     && has (verifiedSessions m) sessionToken) in
         if negb known then Ret SessionExpired
         else
         sync session <- get (fun m => verifiedSessions m !! sessionToken) in
         match session with
         | None => Throw                     (* destructuring undefined *)
         | Some session =>
             let voterKey := Session.voterKey session in
             let voterInfo := Session.voterInfo session in
             (* Double-check if student has already voted *)
             await students <- readJsonFile studentsFile in
             match students with
             | None => Throw
             | Some students =>
                 if hasVoted students voterKey then
                   sync _ <- upd (set_verifiedSessions (delete sessionToken)) in
                   Ret VoteAlreadyRecorded
                 else
                 (* Check if already in voting process *)
                 sync inProgress <- get (fun m => has (votingSessions m) voterKey) in
                 if inProgress then Ret SubmissionInProgress
                 else
                 (* Validate vote selections *)
                 if noSelection b then Ret NoSelection
                 else commit_attempt b voterKey voterInfo students
             end
         end
     end
     end)
    (Ret CommitFailed).

(** ** The administrator's routes (after [requireAuth]) *)

(** POST /api/settings: the flag is written; when voting is switched off
    both session maps are cleared. The answer carries the settings and no
    message. *)
Definition post_settings (votingEnabled : bool) : Job Res.t :=
  await success <- writeJsonFile settingsFile votingEnabled in
  if success then
    if negb votingEnabled then
      (* Clear all sessions when voting is disabled *)
      sync _ <- upd (fun m => mkMem ∅ ∅ (rateLimitMap m) (timers m)) in
      Ret (json 200 true "")
    else Ret (json 200 true "")
  else Ret (json 500 false "Failed to update settings").

(** POST /api/admin/reset: tally and roll are emptied, in this order, and
    the three maps cleared whether or not the writes succeeded. *)
Definition admin_reset : Job Res.t :=
  try_catch
    (await votesSuccess <- writeJsonFile votesFile emptyVotes in
     await studentsSuccess <- writeJsonFile studentsFile [] in
     (* Clear all sessions *)
     sync _ <- upd (fun m => mkMem ∅ ∅ ∅ (timers m)) in
     if votesSuccess && studentsSuccess then
       Ret (json 200 true "Voting data reset successfully")
     else Ret (json 500 false "Failed to reset voting data"))
    (Ret (json 500 false "Error resetting voting data")).

(** ** Expiry: the timer of a session and the periodic cleanup *)

(** The callback of [setInterval], every five minutes. *)
Definition sweepInterval : Z := 5 * 60 * 1000.

Definition cleanup (now : Z) (m : Mem) : Mem :=
  mkMem
    (filter (fun kv => ¬ (now - kv.2 > sessionTimeout)) (votingSessions m))
    (filter (fun kv => ¬ (now - Session.timestamp kv.2 > sessionTimeout)) (verifiedSessions m))
    (filter (fun kv => ¬ (now > RateEntry.resetTime kv.2)) (rateLimitMap m))
    (timers m).

(** The callback registered by [check_voter] for [token]. *)
Definition expire (token : string) (m : Mem) : Mem :=
  set_verifiedSessions (delete token) m.

(** ** The two routes, behind the rate limiter *)

Definition api_check_voter `{JsDate} (clientIP fresh : string) (voterInfo : Body)
    : Job Res.t :=
  limited clientIP (check_voter fresh voterInfo).

Definition api_vote (clientIP : string) (request : VoteRequest) : Job Res.t :=
  limited clientIP (vote request).

(** ** Running handlers *)

Record World : Type := mkWorld {
  clock : Z;
  disk : Disk;
  mem : Mem
}.

(** A handler served alone, from its first step to its response: every
    awaited operation is performed on the disk as it is issued. [None] is
    an exception that left the handler. *)
Fixpoint exec {A : Type} (p : Job A) (w : World) : World * option A :=
  match p with
  | Ret a => (w, Some a)
  | Throw => (w, None)
  | Atomic act k =>
      let '(x, m) := act (clock w) (mem w) in
      exec (k x) (mkWorld (clock w) (disk w) m)
  | Await io k =>
      let '(x, d) := perform io (disk w) in
      exec (k x) (mkWorld (clock w) d (mem w))
  end.

(** The key [check_voter] computes for a form. *)
Definition keyOf (voterInfo : Body) : string :=
  generateVoterKey (prop voterInfo "name") (prop voterInfo "class")
    (prop voterInfo "division") (prop voterInfo "dateOfBirth").

(** The request passes the middleware when it arrives at [w]. *)
Definition admitted (clientIP : string) (w : World) : bool :=
  (rateLimit clientIP (clock w) (rateLimitMap (mem w))).1.

(** The world once the middleware has counted the request. *)
Definition counted (clientIP : string) (w : World) : World :=
  mkWorld (clock w) (disk w)
    (set_rateLimitMap
       (fun _ => (rateLimit clientIP (clock w) (rateLimitMap (mem w))).2) (mem w)).

(** What happens to the server, one event after the other. A request is
    served from its first step to its response before the next event. *)
Inductive Event : Type :=
| CheckVoter (clientIP fresh : string) (voterInfo : Body)
| Vote (clientIP : string) (request : VoteRequest)
| Settings (votingEnabled : bool)    (* the administrator sets the flag *)
| Reset                              (* the administrator resets the election *)
| Tick (dt : Z)                      (* time passes *)
| Timeout (token : string)           (* the timer of [token] runs, if due *)
| Interval                           (* the periodic cleanup runs *)
| Fault (f : File) (how : option Failure).  (* writes to [f] start or stop failing *)

Definition due (now : Z) (token : string) (t : Z * string) : bool :=
  (t.1 <=? now) && bool_decide (t.2 = token).

Definition happen `{JsDate} (e : Event) (w : World) : World * option Res.t :=
  match e with
  | CheckVoter clientIP fresh voterInfo => exec (api_check_voter clientIP fresh voterInfo) w
  | Vote clientIP request => exec (api_vote clientIP request) w
  | Settings votingEnabled => exec (post_settings votingEnabled) w
  | Reset => exec admin_reset w
  | Tick dt => (mkWorld (clock w + Z.max 0 dt) (disk w) (mem w), None)
  | Timeout token =>
      if existsb (due (clock w) token) (timers (mem w)) then
        (mkWorld (clock w) (disk w)
           (set_timers (List.filter (fun t => negb (due (clock w) token t)))
              (expire token (mem w))), None)
      else (w, None)
  | Interval => (mkWorld (clock w) (disk w) (cleanup (clock w) (mem w)), None)
  | Fault f how =>
      let d := disk w in
      (mkWorld (clock w)
         (mkDisk (settings d) (students d) (votes d)
            (fun g => if bool_decide (g = f) then how else failing d g))
         (mem w), None)
  end.

Fixpoint happen_all `{JsDate} (es : list Event) (w : World)
    : World * list (option Res.t) :=
  match es with
  | [] => (w, [])
  | e :: es' =>
      let '(w1, r) := happen e w in
      let '(w2, rs) := happen_all es' w1 in
      (w2, r :: rs)
  end.

(** ** Handlers in flight together

    Between the moment an awaited file operation touches the disk and the
    moment its handler goes on, other handlers may run: a task is [Blocked]
    on an operation not yet performed, [Ready] with the result of its
    operation in hand, or [Finished]. *)
Inductive Task : Type :=
| Blocked {X : Type} (io : IO X) (k : X -> Job Res.t)
| Ready (p : Job Res.t)
| Finished (r : option Res.t).

(** The synchronous stretch of a job, up to its next [Await] or its end. *)
Fixpoint run_sync (p : Job Res.t) (now : Z) (m : Mem) : Mem * Task :=
  match p with
  | Ret a => (m, Finished (Some a))
  | Throw => (m, Finished None)
  | Atomic act k => let '(x, m') := act now m in run_sync (k x) now m'
  | Await io k => (m, Blocked io k)
  end.

Record System : Type := mkSystem {
  world : World;
  tasks : list Task
}.

Inductive Move : Type :=
| Arrive (handler : Job Res.t)   (* a request arrives; its handler starts *)
| Complete (i : nat)             (* the file operation of task [i] is performed *)
| Resume (i : nat).              (* task [i] goes on with the result *)

Definition move (mv : Move) (s : System) : System :=
  let w := world s in
  match mv with
  | Arrive handler =>
      let '(m, t) := run_sync handler (clock w) (mem w) in
      mkSystem (mkWorld (clock w) (disk w) m) (tasks s ++ [t])%list
  | Complete i =>
      match tasks s !! i with
      | Some (Blocked io k) =>
          let '(x, d) := perform io (disk w) in
          mkSystem (mkWorld (clock w) d (mem w)) (<[i := Ready (k x)]> (tasks s))
      | _ => s
      end
  | Resume i =>
      match tasks s !! i with
      | Some (Ready p) =>
          let '(m, t) := run_sync p (clock w) (mem w) in
          mkSystem (mkWorld (clock w) (disk w) m) (<[i := t]> (tasks s))
      | _ => s
      end
  end.

Definition schedule (mvs : list Move) (s : System) : System :=
  fold_left (fun s mv => move mv s) mvs s.

Definition response (t : Task) : option Res.t :=
  match t with Finished r => r | _ => None end.

(** ** A date parser for the scenarios: ISO [YYYY-MM-DD], read as midnight
    UTC, the form an HTML date input submits. *)
Module IsoDate.

Definition digit (c : ascii) : option Z :=
  let n := Js.code c in
  if (48 <=? n) && (n <=? 57) then Some (n - 48) else None.

Fixpoint number (acc : Z) (s : list ascii) : option Z :=
  match s with
  | [] => Some acc
  | c :: r => match digit c with Some d => number (10 * acc + d) r | None => None end
  end.

Definition leap (y : Z) : bool :=
  ((y mod 4 =? 0) && negb (y mod 100 =? 0)) || (y mod 400 =? 0).

Definition month_days (y m : Z) : Z :=
  if m =? 2 then (if leap y then 29 else 28)
  else if (m =? 4) || (m =? 6) || (m =? 9) || (m =? 11) then 30 else 31.

(** Days from 1970-01-01 to the civil date. *)
Definition days (y m d : Z) : Z :=
  let y1 := if m <=? 2 then y - 1 else y in
  let era := y1 / 400 in
  let yoe := y1 - era * 400 in
  let mp := if m >? 2 then m - 3 else m + 9 in
  let doy := (153 * mp + 2) / 5 + d - 1 in
  let doe := yoe * 365 + yoe / 4 - yoe / 100 + doy in
  era * 146097 + doe - 719468.

Definition parse (s : string) : option Z :=
  match list_ascii_of_string s with
  | [y1; y2; y3; y4; "-"%char; m1; m2; "-"%char; d1; d2] =>
      match number 0 [y1; y2; y3; y4], number 0 [m1; m2], number 0 [d1; d2] with
      | Some y, Some m, Some d =>
          if (1 <=? m) && (m <=? 12) && (1 <=? d) && (d <=? month_days y m)
          then Some (days y m d * 86400000) else None
      | _, _, _ => None
      end
  | _ => None
  end.

End IsoDate.

Definition isoDate : JsDate := IsoDate.parse.

(** ** The window a request falls in, and a client's requests in a row *)

(** The entry of [clientIP] when its window is still running at [now];
    [None] for a client without an entry or whose window has elapsed. *)
Definition current_window (rl : gmap string RateEntry.t) (clientIP : string) (now : Z)
    : option RateEntry.t :=
  match rl !! clientIP with
  | Some e => if now >? RateEntry.resetTime e then None else Some e
  | None => None
  end.

(** The requests of one client at the instants [times], in this order:
    which are admitted, and the table afterwards. *)
Fixpoint rateLimit_many (windowMs maxRequests : Z) (clientIP : string) (times : list Z)
    (rl : gmap string RateEntry.t) : list bool * gmap string RateEntry.t :=
  match times with
  | [] => ([], rl)
  | now :: later =>
      let '(admitted, rl1) := rateLimitWith windowMs maxRequests clientIP now rl in
      let '(rest, rl2) := rateLimit_many windowMs maxRequests clientIP later rl1 in
      (admitted :: rest, rl2)
  end.


(** ** Profiles, as the specification speaks of them *)

Module Profile.
Record t : Type := mk {
  name : string;
  studentClass : string;
  division : string;
  dateOfBirth : string
}.
End Profile.

Definition computeKey (P : Profile.t) : string :=
  generateVoterKey (Profile.name P) (Profile.studentClass P) (Profile.division P)
    (Profile.dateOfBirth P).

(** The normal form in the specification's words: "lower-cased name,
    trimmed class/division, optional DOB". *)
Definition normalize (P : Profile.t) : Profile.t :=
  Profile.mk (Js.toLowerCase (Js.trim (Profile.name P)))
    (Js.trim (Profile.studentClass P)) (Js.trim (Profile.division P))
    (Profile.dateOfBirth P).

(** Two strings that differ in surrounding white space only, and in
    surrounding white space and letter case only. *)
Definition same_but_padding (s s' : string) : Prop := Js.trim s = Js.trim s'.
Definition same_but_case_and_padding (s s' : string) : Prop :=
  Js.toLowerCase (Js.trim s) = Js.toLowerCase (Js.trim s').

(** The durable "has voted" of a key: an entry on the roll carries it. *)
Definition voted (w : World) (voterKey : string) : bool :=
  match students (disk w) with
  | Some roll => hasVoted roll voterKey
  | None => false
  end.

(** ** Counting: the votes a tally holds and the choices a roll records *)

(** The four positions, with the tally, the property of a roll entry and
    the property of a submission that belong to each. *)
Inductive Position : Type := HeadBoy | HeadGirl | SportsCaptain | SportsViceCaptain.

Definition tallyOf (p : Position) (v : Votes) : gmap string TVal :=
  match p with
  | HeadBoy => headBoy v
  | HeadGirl => headGirl v
  | SportsCaptain => sportsCaptain v
  | SportsViceCaptain => sportsViceCaptain v
  end.

Definition fieldOf (p : Position) : string :=
  match p with
  | HeadBoy => "headBoyVote"
  | HeadGirl => "headGirlVote"
  | SportsCaptain => "sportsCaptainVote"
  | SportsViceCaptain => "sportsViceCaptainVote"
  end.

Definition selection (p : Position) (b : VoteBody.t) : string :=
  match p with
  | HeadBoy => VoteBody.headBoyVote b
  | HeadGirl => VoteBody.headGirlVote b
  | SportsCaptain => VoteBody.sportsCaptainVote b
  | SportsViceCaptain => VoteBody.sportsViceCaptainVote b
  end.

(** The count a tally holds for a candidate: an absent property counts
    for 0, and a string is no count. *)
Definition countFor (tally : gmap string TVal) (candidate : string) : option Z :=
  match tally !! candidate with
  | None => Some 0
  | Some (Num n) => Some n
  | Some (Str _) => None
  end.




(** All the votes of one tally: the sum of its counts. *)
Definition votesOf (x : TVal) : Z :=
  match x with Num n => n | Str _ => 0 end.
Definition totalVotes (tally : gmap string TVal) : Z :=
  map_fold (fun _ x acc => votesOf x + acc) 0 tally.

(** What a submission served alone answers and leaves behind. *)
Definition vote_outcome (b : VoteBody.t) (w w' : World) (r : Res.t) : Prop :=
  clock w' = clock w
  /\ settings (disk w') = settings (disk w)
  /\ (forall f, failing (disk w') f = failing (disk w) f)
  /\ votingSessions (mem w') = votingSessions (mem w)
  /\ timers (mem w') = timers (mem w)
  /\ (r = VoteRecorded \/ r = VoteAlreadyRecorded ->
      verifiedSessions (mem w') = delete (VoteBody.sessionToken b) (verifiedSessions (mem w)))
  /\ (r <> VoteRecorded -> r <> VoteAlreadyRecorded ->
      verifiedSessions (mem w') = verifiedSessions (mem w))
  /\ (r <> VoteRecorded -> r <> CommitFailed -> disk w' = disk w)
  /\ (r = VoteRecorded ->
      exists v entries session,
        votes (disk w) = Some v
        /\ students (disk w) = Some entries
        /\ verifiedSessions (mem w) !! VoteBody.sessionToken b = Some session
        /\ hasVoted entries (Session.voterKey session) = false
        /\ noSelection b = false
        /\ votes (disk w') = Some (recordVotes b v)
        /\ students (disk w')
           = Some (entries ++ [rollEntry (Session.voterKey session)
                                 (Session.voterInfo session) (clock w) b])%list).


(** A key is entered when the roll holds an entry for it, or can no
    longer be read: [/api/check-voter] then verifies nobody. *)
Definition entered (w : World) (voterKey : string) : Prop :=
  match students (disk w) with
  | Some roll => hasVoted roll voterKey = true
  | None => True
  end.

(** Whether [readJsonFile(studentsFile)] returns a roll. *)
Definition rollReadable (w : World) : bool :=
  match students (disk w) with Some _ => true | None => false end.


(** The forms of ASCII characters, on which the string primitives of
    [Js] are those of JavaScript. *)
Definition ascii_only (s : string) : bool :=
  Js.all_chars (fun c => Js.code c <? 128) s.

(** The properties of a roll entry that the server sets after the spread of
    the form. *)
Definition serverFields : list string :=
  ["votedAt"; "headBoyVote"; "headGirlVote"; "sportsCaptainVote";
   "sportsViceCaptainVote"; "sessionToken"].

(** ** Administrator authentication *)

(** [s.startsWith(p)] and [s.replace(pat, '')] for a string pattern: the
    first occurrence of [pat] is removed. *)
Fixpoint startsWith (p s : string) : bool :=
  match p, s with
  | EmptyString, _ => true
  | String a p', String b s' => bool_decide (a = b) && startsWith p' s'
  | String _ _, EmptyString => false
  end.

Fixpoint dropChars (n : nat) (s : string) : string :=
  match n, s with
  | S n', String _ r => dropChars n' r
  | _, _ => s
  end.

Fixpoint removeFirst (pat s : string) : string :=
  if startsWith pat s then dropChars (String.length pat) s
  else match s with
       | EmptyString => EmptyString
       | String c r => String c (removeFirst pat r)
       end.

(** The [requireAuth] middleware on the [authorization] header ([None]
    when the request has none): whether [next()] is called. Otherwise the
    answer is status 401, "Authentication required". *)
Definition requireAuth (authorization : option string) : bool :=
  match authorization with
  | None => false
  | Some header =>
      let token := removeFirst "Bearer " header in
      Js.truthy token && startsWith "admin_" token
  end.

Module Login.
Record t : Type := mk {
  status : Z;
  success : bool;
  message : string;
  token : option string
}.
End Login.

(** POST /api/admin/login, given what [readJsonFile(adminsFile)] returned
    ([None] for [null]; the file holds [{ admins: [{ username, password }] }])
    and the time of the request. *)
Definition admin_login (adminData : option (list (string * string))) (now : Z)
    (username password : string) : Login.t :=
  if negb (Js.truthy username) || negb (Js.truthy password) then
    Login.mk 400 false "Username and password are required" None
  else
    match adminData with
    | None => Login.mk 500 false "Failed to load admin data" None
    | Some admins =>
        match List.find (fun a => bool_decide (a.1 = username)
                                  && bool_decide (a.2 = password)) admins with
        | Some _ =>
            Login.mk 200 true "Login successful"
              (Some ("admin_" +:+ username +:+ "_" +:+ pretty now))
        | None => Login.mk 401 false "Invalid username or password" None
        end
    end.

(** ** POST /api/upload-candidates: the rows of the sheet *)

(** A row of the Candidates sheet with text cells; the empty string is an
    empty or missing cell. *)
Module Row.
Record t : Type := mk { name : string; position : string; gender : string }.
End Row.

Definition dquote : string := String (Ascii.ascii_of_nat 34) EmptyString.
Definition newline : string := String (Ascii.ascii_of_nat 10) EmptyString.

(** [errors.join('\n')] *)
Fixpoint joinLines (l : list string) : string :=
  match l with
  | [] => EmptyString
  | [x] => x
  | x :: rest => x +:+ newline +:+ joinLines rest
  end.

(** The position names a candidate is filed under. *)
Definition positionKey (p : Position) : string :=
  match p with
  | HeadBoy => "headBoy"
  | HeadGirl => "headGirl"
  | SportsCaptain => "sportsCaptain"
  | SportsViceCaptain => "sportsViceCaptain"
  end.

(** The [switch] on the lower-cased, trimmed position cell. *)
Definition classify (position : string) : option Position :=
  if bool_decide (position ∈ ["head boy"; "headboy"; "hb"]) then Some HeadBoy
  else if bool_decide (position ∈ ["head girl"; "headgirl"; "hg"]) then Some HeadGirl
  else if bool_decide (position ∈ ["sports captain"; "sportscaptain"; "sc"; "captain"])
  then Some SportsCaptain
  else if bool_decide (position ∈ ["sports vice captain"; "sportsvcaptain"; "vice captain";
                                   "vicecaptain"; "svc"; "vc"])
  then Some SportsViceCaptain
  else None.

#[global] Instance Position_eq_dec : EqDecision Position.
Proof. solve_decision. Defined.

Section Upload.

(** The identifiers are [Date.now() + Math.random()]: numbers the model
    takes as given, one for each row. *)
Variable Id : Type.
Variable newId : nat -> Id.

Record Candidate : Type := mkCandidate {
  c_id : Id;
  c_name : string;
  c_position : string;
  c_gender : string
}.

Record Candidates : Type := mkCandidates {
  cHeadBoy : list Candidate;
  cHeadGirl : list Candidate;
  cSportsCaptain : list Candidate;
  cSportsViceCaptain : list Candidate
}.

Definition listOf (p : Position) (c : Candidates) : list Candidate :=
  match p with
  | HeadBoy => cHeadBoy c
  | HeadGirl => cHeadGirl c
  | SportsCaptain => cSportsCaptain c
  | SportsViceCaptain => cSportsViceCaptain c
  end.

(** [candidates[p].push(x)] *)
Definition push (p : Position) (x : Candidate) (c : Candidates) : Candidates :=
  match p with
  | HeadBoy => mkCandidates (cHeadBoy c ++ [x])%list (cHeadGirl c) (cSportsCaptain c)
                 (cSportsViceCaptain c)
  | HeadGirl => mkCandidates (cHeadBoy c) (cHeadGirl c ++ [x])%list (cSportsCaptain c)
                  (cSportsViceCaptain c)
  | SportsCaptain => mkCandidates (cHeadBoy c) (cHeadGirl c) (cSportsCaptain c ++ [x])%list
                       (cSportsViceCaptain c)
  | SportsViceCaptain => mkCandidates (cHeadBoy c) (cHeadGirl c) (cSportsCaptain c)
                           (cSportsViceCaptain c ++ [x])%list
  end.

(** The position and gender cells as the candidate holds them. *)
Definition cleanPosition (row : Row.t) : string :=
  Js.trim (Js.toLowerCase (Row.position row)).
Definition cleanGender (row : Row.t) : string :=
  if Js.truthy (Row.gender row) then Js.trim (Js.toLowerCase (Row.gender row)) else EmptyString.

(** The body of [data.forEach((row, index) => ...)]. *)
Definition processRow (index : nat) (row : Row.t) (acc : Candidates * list string)
    : Candidates * list string :=
  let '(candidates, errors) := acc in
  if negb (Js.truthy (Row.name row)) || negb (Js.truthy (Row.position row)) then
    (candidates,
     (errors ++ ["Row " +:+ pretty (index + 2)%nat +:+ ": Missing name or position"])%list)
  else
    match classify (cleanPosition row) with
    | Some p =>
        (push p (mkCandidate (newId index) (Js.trim (Row.name row)) (positionKey p)
                   (cleanGender row)) candidates,
         errors)
    | None =>
        (candidates,
         (errors ++ ["Row " +:+ pretty (index + 2)%nat +:+ ": Invalid position " +:+ dquote
                     +:+ cleanPosition row +:+ dquote
                     +:+ ". Use: head boy, head girl, sports captain, sports vice captain"])%list)
    end.

Fixpoint processRows (index : nat) (rows : list Row.t) (acc : Candidates * list string)
    : Candidates * list string :=
  match rows with
  | [] => acc
  | row :: rest => processRows (S index) rest (processRow index row acc)
  end.

Definition totalCandidates (c : Candidates) : nat :=
  (length (cHeadBoy c) + length (cHeadGirl c)
   + length (cSportsCaptain c) + length (cSportsViceCaptain c))%nat.

Definition noCandidates : Candidates := mkCandidates [] [] [] [].

(** What the route does with the rows: refuse with status 400 and the
    list of errors, refuse an upload without candidates, or go on to write
    the candidates file. *)
Inductive Upload : Type :=
| Refused (message : string) (errors : list string)
| Accepted (candidates : Candidates).

Definition uploadRows (rows : list Row.t) : Upload :=
  let '(candidates, errors) := processRows 0 rows (noCandidates, []) in
  if negb (Nat.eqb (length errors) 0) then
    Refused ("File processing errors:" +:+ newline +:+ joinLines errors) errors
  else
    if Nat.eqb (totalCandidates candidates) 0 then
      Refused "No valid candidates found. Please check your Excel file format." []
    else Accepted candidates.

(** The sheet read row by row: the position a row is filed under, if
    any, and the candidates of a position in the order of the sheet. *)
Definition rowPosition (row : Row.t) : option Position :=
  if Js.truthy (Row.name row) && Js.truthy (Row.position row)
  then classify (cleanPosition row) else None.

Fixpoint filed (p : Position) (index : nat) (rows : list Row.t) : list Candidate :=
  match rows with
  | [] => []
  | row :: rest =>
      (if bool_decide (rowPosition row = Some p)
       then [mkCandidate (newId index) (Js.trim (Row.name row)) (positionKey p)
               (cleanGender row)]
       else []) ++ filed p (S index) rest
  end%list.

End Upload.

(** ** The three-field validator of the variant server *)

(** [validateVoterInfo] of the variant server (the one of
    [generateVoterKey3]): the same checks without the date of birth. *)
Definition validateVoterInfo3 (voterInfo : Body) : Validation.t :=
  let name := prop voterInfo "name" in
  let studentClass := prop voterInfo "class" in
  let division := prop voterInfo "division" in
  if negb (Js.truthy name) || negb (Js.truthy studentClass)
     || negb (Js.truthy division) then
    invalid "All fields are required"
  else
  let cleanName := Js.trim name in
  if negb (Js.truthy cleanName) || (Js.len cleanName <? 2) || (Js.len cleanName >? 100) then
    invalid "Name must be between 2-100 characters"
  else if negb (name_regex cleanName) then
    invalid "Name can only contain letters, spaces, hyphens, apostrophes, and dots"
  else
  let cleanClass := Js.toUpperCase (Js.trim studentClass) in
  if negb (Js.truthy cleanClass) || (Js.len cleanClass >? 10) then
    invalid "Class field is required and must be under 10 characters"
  else
  let cleanDivision := Js.toUpperCase (Js.trim division) in
  if negb (Js.truthy cleanDivision) || (Js.len cleanDivision >? 5) then
    invalid "Division field is required and must be under 5 characters"
  else Validation.mk true EmptyString.

(** ** Scenarios *)

Module Scenario.

Definition disk0 : Disk :=
  mkDisk (Some true) (Some []) (Some emptyVotes) (fun _ => None).

(** 14 November 2023, voting enabled, nobody verified. *)
Definition world0 : World := mkWorld 1700000000000 disk0 emptyMem.

Definition jane : Body :=
  {[ "name" := "Jane Doe"; "class" := "10"; "division" := "A";
     "dateOfBirth" := "2010-01-01" ]}.

Definition janeKey : string := generateVoterKey "Jane Doe" "10" "A" "2010-01-01".

Definition T1 : string :=
  "1111111111111111111111111111111111111111111111111111111111111111".
Definition T2 : string :=
  "2222222222222222222222222222222222222222222222222222222222222222".

Definition ballot (token : string) : VoteBody.t :=
  VoteBody.mk token "Alice" "" "" "".

(** The same form with one property more than the form has fields. *)
Definition jane' : Body := <["voterKey" := "x"]> jane.

Definition ip : string := "10.0.0.7".

(** Jane has verified and holds [T1]. *)
Definition verified1 : World :=
  (exec (@api_check_voter isoDate ip T1 jane) world0).1.

(** Jane's submission is under way: it holds the lock and waits for the
    tally to be read. *)
Definition in_flight : System :=
  schedule [Arrive (api_vote ip (ballot T1)); Complete 0%nat; Resume 0%nat;
            Complete 0%nat; Resume 0%nat]
    (mkSystem verified1 []).

(** Voting has been switched off; nobody is verified. *)
Definition closed0 : World :=
  mkWorld 1700000000000
    (mkDisk (Some false) (Some []) (Some emptyVotes) (fun _ => None)) emptyMem.

(** Ten minutes and a millisecond after Jane verified; her session's timer
    is due and has not run yet. *)
Definition overdue : World :=
  (@happen_all isoDate [CheckVoter ip T1 jane; Tick 600001] world0).1.

(** The head-boy tally of a candidate, and the roll, as the files hold
    them. *)
Definition tally (w : World) (candidate : string) : option Z :=
  votes (disk w) ≫= fun v =>
  headBoy v !! candidate ≫= fun x =>
  match x with Num n => Some n | Str _ => None end.
Definition roll (w : World) : option (list Student) := students (disk w).

(** Jane verifies with the form that carries a [voterKey] property,
    votes, verifies again and votes again. *)
Definition twice : list Event :=
  [CheckVoter ip T1 jane'; Vote ip (ballot T1); CheckVoter ip T2 jane'; Vote ip (ballot T2)].

(** Two submissions with Jane's token are in flight together. The
    second reads the roll just before the first writes it, and goes on
    after the first has finished. *)
Definition race : list Move :=
  [Arrive (api_vote ip (ballot T1)); Arrive (api_vote ip (ballot T1));
   (* both pass the settings gate and the token check, and ask for the roll *)
   Complete 0; Resume 0; Complete 1; Resume 1;
   (* the first reads the roll, takes the lock, credits and writes the tally *)
   Complete 0; Resume 0; Complete 0; Resume 0; Complete 0; Resume 0;
   (* the roll is read for the second, still without Jane *)
   Complete 1;
   (* the first writes the roll, drops session and lock, answers *)
   Complete 0; Resume 0;
   (* the second goes on: no entry in the roll it read, no lock *)
   Resume 1; Complete 1; Resume 1; Complete 1; Resume 1; Complete 1; Resume 1]%nat.

(** The roll cannot be written while Jane's submission is committed;
    once it can be written again she submits again. *)
Definition torn : list Event :=
  [Fault studentsFile (Some Untouched); Vote ip (ballot T1)].
Definition retry : list Event :=
  [Fault studentsFile None; Vote ip (ballot T1)].

(** The tally cannot be written while Jane's submission is committed.
    Once it can be written again she submits again, and then asks to be
    verified again. *)
Definition lost : list Event :=
  [Fault votesFile (Some Untouched); Vote ip (ballot T1)].
Definition again : list Event :=
  [Fault votesFile None; Vote ip (ballot T1); CheckVoter ip T2 jane].

(** Jane votes for candidates named after properties of
    [Object.prototype]; a submission with a number for a token follows. *)
Definition oddBallot (token : string) : VoteBody.t :=
  VoteBody.mk token "__proto__" "constructor" "Alice" "".
Definition odd : list Event :=
  [CheckVoter ip T1 jane; Vote ip (oddBallot T1); Vote ip TokenNotString].

End Scenario.

(** * Properties *)

(** ** Rate limiter *)

Section RateLimiter.

Variables windowMs maxRequests : Z.
Variable clientIP : string.

Lemma rateLimit_new_window (now : Z) (rl : gmap string RateEntry.t) :
  current_window rl clientIP now = None ->
  rateLimitWith windowMs maxRequests clientIP now rl
  = (true, <[clientIP := RateEntry.mk 1 (now + windowMs)]> rl).
Proof.
  unfold current_window, rateLimitWith.
  destruct (rl !! clientIP) as [e|]; [|reflexivity].
  destruct (now >? RateEntry.resetTime e); [reflexivity|discriminate].
Qed.

Lemma rateLimit_same_window (now : Z) (rl : gmap string RateEntry.t) (e : RateEntry.t) :
  current_window rl clientIP now = Some e ->
  rateLimitWith windowMs maxRequests clientIP now rl
  = if RateEntry.count e >=? maxRequests then (false, rl)
    else (true, <[clientIP := RateEntry.mk (RateEntry.count e + 1)
                                           (RateEntry.resetTime e)]> rl).
Proof.
  unfold current_window, rateLimitWith.
  destruct (rl !! clientIP) as [e0|]; [|discriminate].
  destruct (now >? RateEntry.resetTime e0); [discriminate|].
  intros [= ->]. reflexivity.
Qed.

Lemma current_window_lookup (now : Z) (rl : gmap string RateEntry.t) (c r : Z) :
  rl !! clientIP = Some (RateEntry.mk c r) -> now <= r ->
  current_window rl clientIP now = Some (RateEntry.mk c r).
Proof.
  intros Hl Hle. unfold current_window. rewrite Hl. cbn.
  destruct (Z.gtb_spec now r); [lia|reflexivity].
Qed.

(** Inside one window the [i]-th further request of a client whose counter
    stands at [c] is admitted exactly when [c + i] is below the maximum. *)
Lemma rateLimit_many_same_window (times : list Z) :
  forall (rl : gmap string RateEntry.t) (c r : Z),
    rl !! clientIP = Some (RateEntry.mk c r) ->
    Forall (fun t => t <= r) times ->
    (rateLimit_many windowMs maxRequests clientIP times rl).1
    = map (fun i => c + Z.of_nat i <? maxRequests) (seq 0 (length times)).
Proof.
  induction times as [|now later IH]; intros rl c r Hl Hall; [reflexivity|].
  apply Forall_cons in Hall as [Hnow Hlater].
  cbn [rateLimit_many length seq map].
  rewrite (rateLimit_same_window now rl _ (current_window_lookup now rl c r Hl Hnow)).
  cbn [RateEntry.count RateEntry.resetTime].
  rewrite <- seq_shift, map_map.
  destruct (Z.geb_spec c maxRequests) as [Hge|Hlt].
  - specialize (IH rl c r Hl Hlater).
    destruct (rateLimit_many windowMs maxRequests clientIP later rl) as [rest rl2].
    cbn in *. rewrite IH. f_equal.
    + symmetry. apply Z.ltb_ge. lia.
    + apply map_ext. intros i.
      transitivity false; [|symmetry]; apply Z.ltb_ge; lia.
  - specialize (IH (<[clientIP := RateEntry.mk (c + 1) r]> rl) (c + 1) r
                  (lookup_insert_eq _ _ _) Hlater).
    destruct (rateLimit_many windowMs maxRequests clientIP later _) as [rest rl2].
    cbn in *. rewrite IH. f_equal.
    + symmetry. apply Z.ltb_lt. lia.
    + apply map_ext. intros i. f_equal. lia.
Qed.

End RateLimiter.

Lemma exec_limited (clientIP : string) (next : Job Res.t) (w : World) :
  exec (limited clientIP next) w
  = if admitted clientIP w then exec next (counted clientIP w)
    else (counted clientIP w, Some RateLimited).
Proof.
  unfold limited, admitted, counted. cbn.
  destruct (rateLimit clientIP (clock w) (rateLimitMap (mem w))) as [ok rl]. cbn.
  destruct ok; reflexivity.
Qed.

(** C8. Rate limiter, for any window length and maximum. (a) The first
    request of a client in a new or elapsed window sets its counter to 1
    and is admitted. (b) A request inside the running window is admitted
    exactly when the counter is below the maximum; a rejected request
    leaves the table as it was, and the counter of the window never
    decreases and its end never moves. (c) Of the requests of one window,
    the first [maxRequests] are admitted and every later one is rejected.
    (d) A route behind the middleware answers a request that is not
    admitted with status 429, "too many requests", and does not run its
    handler. *)
Theorem rateLimit_fixed_window :
  forall (windowMs maxRequests : Z) (clientIP : string) (now : Z)
         (rl : gmap string RateEntry.t),
    (current_window rl clientIP now = None ->
       rateLimitWith windowMs maxRequests clientIP now rl
       = (true, <[clientIP := RateEntry.mk 1 (now + windowMs)]> rl))
    /\ (forall e, current_window rl clientIP now = Some e ->
          let '(admitted, rl') := rateLimitWith windowMs maxRequests clientIP now rl in
          admitted = (RateEntry.count e <? maxRequests)
          /\ (admitted = false -> rl' = rl)
          /\ exists e', rl' !! clientIP = Some e'
               /\ RateEntry.resetTime e' = RateEntry.resetTime e
               /\ RateEntry.count e <= RateEntry.count e' <= RateEntry.count e + 1)
    /\ (forall later,
          current_window rl clientIP now = None ->
          Forall (fun t => t <= now + windowMs) later ->
          (rateLimit_many windowMs maxRequests clientIP (now :: later) rl).1
          = true :: map (fun i => 1 + Z.of_nat i <? maxRequests) (seq 0 (length later)))
    /\ (forall (next : Job Res.t) (w : World),
          (rateLimit clientIP (clock w) (rateLimitMap (mem w))).1 = false ->
          exec (limited clientIP next) w = (counted clientIP w, Some RateLimited)
          /\ Res.status RateLimited = 429).
Proof.
  intros W M ip now rl. split; [|split; [|split]].
  4:{ intros next w Hrej. split; [|reflexivity].
      rewrite exec_limited. unfold admitted. now rewrite Hrej. }
  - apply rateLimit_new_window.
  - intros e He. rewrite (rateLimit_same_window W M ip now rl e He).
    assert (rl !! ip = Some e) as Hl.
    { unfold current_window in He. destruct (rl !! ip) as [e0|]; [|discriminate].
      destruct (now >? RateEntry.resetTime e0); [discriminate|congruence]. }
    destruct (Z.geb_spec (RateEntry.count e) M) as [Hge|Hlt].
    + split; [symmetry; apply Z.ltb_ge; lia|]. split; [reflexivity|].
      exists e. repeat split; [assumption|lia|lia].
    + split; [symmetry; apply Z.ltb_lt; lia|]. split; [discriminate|].
      eexists. split; [apply lookup_insert_eq|]. cbn. lia.
  - intros later Hnew Hall. cbn [rateLimit_many].
    rewrite (rateLimit_new_window W M ip now rl Hnew).
    pose proof (rateLimit_many_same_window W M ip later
                  (<[ip := RateEntry.mk 1 (now + W)]> rl) 1 (now + W)
                  (lookup_insert_eq _ _ _) Hall) as Hmany.
    destruct (rateLimit_many W M ip later _) as [rest rl2]. cbn in *.
    now rewrite Hmany.
Qed.

(** ** Handlers served alone *)

#[local] Arguments hasVoted : simpl never.
#[local] Arguments generateVoterKey : simpl never.
#[local] Arguments validateVoterInfo : simpl never.
#[local] Arguments recordVotes : simpl never.
#[local] Arguments rollEntry : simpl never.
#[local] Arguments noSelection : simpl never.
#[local] Arguments has : simpl never.

Lemma exec_try_catch {A : Type} (p h : Job A) :
  forall w : World,
    exec (try_catch p h) w
    = match exec p w with
      | (w', Some a) => (w', Some a)
      | (w', None) => exec h w'
      end.
Proof.
  induction p as [a| |X act k IH|X io k IH]; intros w; cbn.
  - reflexivity.
  - reflexivity.
  - destruct (act (clock w) (mem w)) as [x m]. apply IH.
  - destruct (perform io (disk w)) as [x d]. apply IH.
Qed.

Section CheckVoter.

Context `{JsDate}.

(** What [check_voter] does with a valid form whose key is not on the roll,
    by whether the key is in [votingSessions]. *)
Lemma check_voter_not_voted (w : World) (fresh : string) (voterInfo : Body)
    (roll : list Student) :
  Validation.valid (validateVoterInfo (clock w) voterInfo) = true ->
  students (disk w) = Some roll ->
  hasVoted roll (keyOf voterInfo) = false ->
  exec (check_voter fresh voterInfo) w
  = if has (votingSessions (mem w)) (keyOf voterInfo) then (w, Some SessionInProgress)
    else
      (mkWorld (clock w) (disk w)
         (set_timers (fun l => (l ++ [(clock w + sessionTimeout, fresh)])%list)
            (set_verifiedSessions
               (insert fresh (Session.mk (keyOf voterInfo) voterInfo (clock w) true))
               (mem w))),
       Some (Verified fresh)).
Proof.
  intros Hvalid Hroll Hnot. unfold check_voter, keyOf in *. cbn.
  rewrite Hvalid. cbn. rewrite Hroll, Hnot. cbn.
  destruct w as [now d m]. cbn in *.
  destruct (has (votingSessions m) _); reflexivity.
Qed.

Lemma check_voter_voted (w : World) (fresh : string) (voterInfo : Body)
    (roll : list Student) :
  Validation.valid (validateVoterInfo (clock w) voterInfo) = true ->
  students (disk w) = Some roll ->
  hasVoted roll (keyOf voterInfo) = true ->
  exec (check_voter fresh voterInfo) w = (w, Some AlreadyVoted).
Proof.
  intros Hvalid Hroll Hvoted. unfold check_voter, keyOf in *. cbn.
  rewrite Hvalid. cbn. rewrite Hroll, Hvoted. cbn.
  destruct w; reflexivity.
Qed.

End CheckVoter.

(** C10. A key that holds a voting lock and has no entry on the roll is
    answered by [/api/check-voter] with [success: false] and
    [hasVoted: true], although the voter has not voted. *)
Theorem check_voter_locked_reports_hasVoted `{JsDate} :
  forall (w : World) (clientIP fresh : string) (voterInfo : Body) (roll : list Student),
    admitted clientIP w = true ->
    Validation.valid (validateVoterInfo (clock (counted clientIP w)) voterInfo) = true ->
    students (disk w) = Some roll ->
    hasVoted roll (keyOf voterInfo) = false ->
    has (votingSessions (mem w)) (keyOf voterInfo) = true ->
    exists r : Res.t,
      exec (api_check_voter clientIP fresh voterInfo) w = (counted clientIP w, Some r)
      /\ Res.success r = false
      /\ Res.hasVoted r = Some true
      /\ Res.sessionToken r = None.
Proof.
  intros w clientIP fresh voterInfo roll Hadm Hvalid Hroll Hnot Hlock.
  exists SessionInProgress. split; [|repeat split].
  unfold api_check_voter. rewrite exec_limited, Hadm.
  rewrite (check_voter_not_voted (counted clientIP w) fresh voterInfo roll Hvalid Hroll Hnot).
  cbn. now rewrite Hlock.
Qed.

Lemma check_voter_locked_reports_hasVoted_witness :
  exists r : Res.t,
    exec (@api_check_voter isoDate Scenario.ip Scenario.T2 Scenario.jane)
      (world Scenario.in_flight)
    = (counted Scenario.ip (world Scenario.in_flight), Some r)
    /\ Res.success r = false
    /\ Res.hasVoted r = Some true
    /\ Res.sessionToken r = None.
Proof.
  apply (@check_voter_locked_reports_hasVoted isoDate (world Scenario.in_flight)
           Scenario.ip Scenario.T2 Scenario.jane []);
    vm_compute; reflexivity.
Defined.

(** C5, as the code has it. For a valid form whose key is not on the roll,
    [/api/check-voter] answers "session already in progress" exactly when
    the key holds a voting lock, and then creates nothing. Without a lock it
    verifies again, whatever sessions are live: the fresh token is added to
    [verifiedSessions] and every other token stays. *)
Theorem check_voter_in_progress_iff_lock `{JsDate} :
  forall (w : World) (clientIP fresh : string) (voterInfo : Body) (roll : list Student),
    admitted clientIP w = true ->
    Validation.valid (validateVoterInfo (clock (counted clientIP w)) voterInfo) = true ->
    students (disk w) = Some roll ->
    hasVoted roll (keyOf voterInfo) = false ->
    let '(w', r) := exec (api_check_voter clientIP fresh voterInfo) w in
    if has (votingSessions (mem w)) (keyOf voterInfo) then
      r = Some SessionInProgress
      /\ verifiedSessions (mem w') = verifiedSessions (mem w)
    else
      r = Some (Verified fresh)
      /\ verifiedSessions (mem w')
         = <[fresh := Session.mk (keyOf voterInfo) voterInfo (clock w) true]>
             (verifiedSessions (mem w)).
Proof.
  intros w clientIP fresh voterInfo roll Hadm Hvalid Hroll Hnot.
  unfold api_check_voter. rewrite exec_limited, Hadm.
  rewrite (check_voter_not_voted (counted clientIP w) fresh voterInfo roll Hvalid Hroll Hnot).
  cbn. destruct (has (votingSessions (mem w)) (keyOf voterInfo)); cbn; split; reflexivity.
Qed.

Lemma check_voter_in_progress_iff_lock_witness :
  let '(w', r) :=
    exec (@api_check_voter isoDate Scenario.ip Scenario.T2 Scenario.jane)
      (world Scenario.in_flight) in
  r = Some SessionInProgress
  /\ verifiedSessions (mem w') = verifiedSessions (mem (world Scenario.in_flight)).
Proof.
  apply (@check_voter_in_progress_iff_lock isoDate (world Scenario.in_flight)
           Scenario.ip Scenario.T2 Scenario.jane []); vm_compute; reflexivity.
Defined.

(** C5 as stated fails: Jane holds the live session [T1] and has not voted;
    her form sent again is verified, not refused, and afterwards two live
    tokens carry her key. *)
Lemma check_voter_retry_second_token :
  let '(w', r) :=
    exec (@api_check_voter isoDate Scenario.ip Scenario.T2 Scenario.jane)
      Scenario.verified1 in
  Session.voterKey <$> verifiedSessions (mem Scenario.verified1) !! Scenario.T1
    = Some Scenario.janeKey
  /\ (students (disk Scenario.verified1) ≫= fun roll => Some (hasVoted roll Scenario.janeKey))
     = Some false
  /\ r = Some (Verified Scenario.T2)
  /\ r <> Some SessionInProgress
  /\ Session.voterKey <$> verifiedSessions (mem w') !! Scenario.T1 = Some Scenario.janeKey
  /\ Session.voterKey <$> verifiedSessions (mem w') !! Scenario.T2 = Some Scenario.janeKey.
Proof. vm_compute. repeat split; discriminate. Qed.

(** ** POST /api/vote *)

(** The first two checks of [vote]: the settings gate, then the token. *)
Lemma vote_disabled (w : World) (b : VoteBody.t) :
  settings (disk w) = Some false -> exec (vote b) w = (w, Some VotingDisabled).
Proof.
  intros Hs. unfold vote. cbn. rewrite Hs. cbn. destruct w; reflexivity.
Qed.

Lemma vote_unknown_token (w : World) (b : VoteBody.t) :
  settings (disk w) = Some true ->
  Js.truthy (VoteBody.sessionToken b)
    && has (verifiedSessions (mem w)) (VoteBody.sessionToken b) = false ->
  exec (vote b) w = (w, Some SessionExpired).
Proof.
  intros Hs Hunknown. unfold vote. cbn. rewrite Hs. cbn. rewrite Hunknown. cbn.
  destruct w; reflexivity.
Qed.

(** A token that is no string: the handler throws at once and answers
    "error recording vote", whatever the settings. *)
Lemma vote_token_not_string (w : World) :
  exec (vote TokenNotString) w = (w, Some CommitFailed).
Proof. destruct w; reflexivity. Qed.

(** C6, as the code has it. Before any check [/api/vote] evaluates
    [sessionToken?.substring(0, 8)]: a submission whose token is of another
    JSON type than a string (and not [null] or absent) is answered "error
    recording vote", with status 500, whatever the settings hold. For every
    other submission the settings gate is consulted first and the session
    token second: while voting is disabled the submission, whatever its
    token, is answered "voting is currently disabled"; an unknown token is
    answered "invalid or expired session" only when voting is enabled. *)
Theorem vote_gate_then_token :
  forall (w : World) (clientIP : string) (b : VoteBody.t),
    admitted clientIP w = true ->
    (settings (disk w) = Some false ->
       exec (api_vote clientIP b) w = (counted clientIP w, Some VotingDisabled))
    /\ (settings (disk w) = Some true ->
        Js.truthy (VoteBody.sessionToken b)
          && has (verifiedSessions (mem w)) (VoteBody.sessionToken b) = false ->
        exec (api_vote clientIP b) w = (counted clientIP w, Some SessionExpired))
    /\ exec (api_vote clientIP TokenNotString) w = (counted clientIP w, Some CommitFailed)
    /\ Res.status CommitFailed = 500.
Proof.
  intros w clientIP b Hadm. unfold api_vote. rewrite !exec_limited, Hadm.
  split; [|split; [|split]].
  - intros Hs. now apply vote_disabled.
  - intros Hs Hunknown. now apply vote_unknown_token.
  - apply vote_token_not_string.
  - reflexivity.
Qed.

Lemma vote_gate_then_token_witness :
  exec (api_vote Scenario.ip (Scenario.ballot Scenario.T2)) Scenario.closed0
  = (counted Scenario.ip Scenario.closed0, Some VotingDisabled).
Proof.
  exact (proj1 (vote_gate_then_token Scenario.closed0 Scenario.ip
                  (Scenario.ballot Scenario.T2) eq_refl) eq_refl).
Defined.

(** C6 as stated fails: a submission with a token no session knows, sent
    while voting is disabled, is answered [VotingDisabled] and not
    [SessionExpired]. *)
Lemma vote_unknown_token_while_disabled :
  settings (disk Scenario.closed0) = Some false
  /\ has (verifiedSessions (mem Scenario.closed0)) Scenario.T2 = false
  /\ (exec (api_vote Scenario.ip (Scenario.ballot Scenario.T2)) Scenario.closed0).2
     = Some VotingDisabled
  /\ (exec (api_vote Scenario.ip (Scenario.ballot Scenario.T2)) Scenario.closed0).2
     <> Some SessionExpired.
Proof. vm_compute. repeat split; discriminate. Qed.

(** The commit attempt served alone, by what the disk does. *)
Definition locked (key : string) (w : World) : World :=
  mkWorld (clock w) (disk w) (set_votingSessions (insert key (clock w)) (mem w)).
Definition unlocked (key : string) (w : World) : World :=
  mkWorld (clock w) (disk w) (set_votingSessions (delete key) (mem w)).
Definition on_disk (d : Disk) (w : World) : World := mkWorld (clock w) d (mem w).

Lemma commit_attempt_exec (b : VoteBody.t) (key : string) (info : Body)
    (roll : list Student) (w : World) :
  exec (commit_attempt b key info roll) w
  = match votes (disk w) with
    | None => (unlocked key (locked key w), None)
    | Some v =>
        let '(ok1, d1) := write votesFile (recordVotes b v) (disk w) in
        let '(ok2, d2) :=
          write studentsFile (roll ++ [rollEntry key info (clock w) b])%list d1 in
        if ok1 && ok2 then
          (unlocked key
             (mkWorld (clock w) d2
                (set_verifiedSessions (delete (VoteBody.sessionToken b))
                   (mem (locked key w)))),
           Some VoteRecorded)
        else (unlocked key (on_disk d2 (locked key w)), None)
    end.
Proof.
  unfold commit_attempt. cbn. rewrite exec_try_catch. cbn.
  destruct (votes (disk w)) as [v|]; cbn; [|reflexivity].
  destruct (write votesFile (recordVotes b v) (disk w)) as [ok1 d1]. cbn.
  destruct (write studentsFile _ d1) as [ok2 d2]. cbn.
  destruct (ok1 && ok2); reflexivity.
Qed.

Lemma commit_attempt_releases (b : VoteBody.t) (key : string) (info : Body)
    (roll : list Student) (w : World) :
  votingSessions (mem (exec (commit_attempt b key info roll) w).1) !! key = None.
Proof.
  rewrite commit_attempt_exec.
  destruct (votes (disk w)) as [v|]; [|apply lookup_delete_eq].
  destruct (write votesFile _ _) as [ok1 d1].
  destruct (write studentsFile _ _) as [ok2 d2].
  destruct (ok1 && ok2); apply lookup_delete_eq.
Qed.

#[local] Arguments commit_attempt : simpl never.

(** [vote] served alone, check by check. *)
Lemma vote_exec (b : VoteBody.t) (w : World) :
  exec (vote b) w
  = let token := VoteBody.sessionToken b in
    match settings (disk w) with
    | None => (w, Some CommitFailed)
    | Some false => (w, Some VotingDisabled)
    | Some true =>
        match verifiedSessions (mem w) !! token with
        | None => (w, Some SessionExpired)
        | Some session =>
            if negb (Js.truthy token) then (w, Some SessionExpired)
            else
            match students (disk w) with
            | None => (w, Some CommitFailed)
            | Some roll =>
                if hasVoted roll (Session.voterKey session) then
                  (mkWorld (clock w) (disk w) (set_verifiedSessions (delete token) (mem w)),
                   Some VoteAlreadyRecorded)
                else if has (votingSessions (mem w)) (Session.voterKey session) then
                  (w, Some SubmissionInProgress)
                else if noSelection b then (w, Some NoSelection)
                else
                  let '(w', r) :=
                    exec (commit_attempt b (Session.voterKey session)
                            (Session.voterInfo session) roll) w in
                  (w', Some (default CommitFailed r))
            end
        end
    end.
Proof.
  unfold vote. rewrite exec_try_catch. cbn.
  destruct w as [now d m]. cbn.
  destruct (settings d) as [[|]|]; cbn; try reflexivity.
  destruct (verifiedSessions m !! VoteBody.sessionToken b) as [session|] eqn:Hs;
    unfold has at 1; rewrite Hs.
  2:{ rewrite andb_false_r. reflexivity. }
  rewrite andb_true_r.
  destruct (Js.truthy (VoteBody.sessionToken b)); cbn; [|reflexivity].
  rewrite Hs. cbn.
  destruct (students d) as [roll|]; cbn; [|reflexivity].
  destruct (hasVoted roll (Session.voterKey session)); cbn; [reflexivity|].
  destruct (has (votingSessions m) (Session.voterKey session)); cbn; [reflexivity|].
  destruct (noSelection b); cbn; [reflexivity|].
  destruct (exec (commit_attempt b _ _ roll) _) as [w' [r|]]; reflexivity.
Qed.

(** X23. A commit attempt takes the voting lock of its key and, however
    the files behave, ends with the lock removed: on success (both files
    written) and on failure (the tally unreadable, or a write that fails).
    This holds step by step, whatever other handlers do to the maps while
    the attempt waits for its three file operations, and for the attempt
    served alone. Served through [/api/vote], a submission therefore never
    leaves a lock behind, and a submission answered "error recording vote"
    keeps the session. *)
Theorem commit_attempt_lock_released :
  forall (w : World) (b : VoteBody.t) (key : string) (info : Body) (roll : list Student),
    (exists k1,
       run_sync (commit_attempt b key info roll) (clock w) (mem w)
       = (set_votingSessions (insert key (clock w)) (mem w),
          Blocked (readJsonFile votesFile) k1)
       /\ (forall now1 m1,
             run_sync (k1 None) now1 m1
             = (set_votingSessions (delete key) m1, Finished None))
       /\ (forall v now1 m1,
             exists votes' k2,
               run_sync (k1 (Some v)) now1 m1
               = (m1, Blocked (writeJsonFile votesFile votes') k2)
               /\ forall ok1 now2 m2,
                    exists roll' k3,
                      run_sync (k2 ok1) now2 m2
                      = (m2, Blocked (writeJsonFile studentsFile roll') k3)
                      /\ forall ok2 now3 m3,
                           exists m3' r,
                             run_sync (k3 ok2) now3 m3 = (m3', Finished r)
                             /\ votingSessions m3' !! key = None
                             /\ (r = Some VoteRecorded <-> ok1 && ok2 = true)))
    /\ (let '(w', r) := exec (commit_attempt b key info roll) w in
        votingSessions (mem w') !! key = None
        /\ (r = Some VoteRecorded \/ r = None))
    /\ (let '(w', r) := exec (vote b) w in
        (forall k, votingSessions (mem w) !! k = None ->
                   votingSessions (mem w') !! k = None)
        /\ (r = Some CommitFailed ->
            verifiedSessions (mem w') = verifiedSessions (mem w))).
Proof.
  intros w b key info roll. split; [|split].
  - eexists. split; [reflexivity|]. split; [reflexivity|].
    intros v now1 m1. eexists _, _. split; [reflexivity|].
    intros ok1 now2 m2. eexists _, _. split; [reflexivity|].
    intros ok2 now3 m3. destruct ok1, ok2; cbn; eexists _, _;
      (split; [reflexivity|]); (split; [apply lookup_delete_eq|]);
      split; (discriminate || reflexivity).
  - pose proof (commit_attempt_releases b key info roll w) as Hrel.
    pose proof (commit_attempt_exec b key info roll w) as Hex.
    destruct (exec (commit_attempt b key info roll) w) as [w' r]. cbn in Hrel.
    split; [assumption|].
    destruct (votes (disk w)) as [v|]; [|right; congruence].
    destruct (write votesFile _ _) as [ok1 d1].
    destruct (write studentsFile _ _) as [ok2 d2].
    destruct (ok1 && ok2); [left|right]; congruence.
  - rewrite vote_exec. cbn zeta.
    destruct (settings (disk w)) as [[|]|]; try (split; [tauto|reflexivity]).
    destruct (verifiedSessions (mem w) !! VoteBody.sessionToken b) as [session|];
      try (split; [tauto|reflexivity]).
    destruct (negb _); try (split; [tauto|reflexivity]).
    destruct (students (disk w)) as [roll'|]; try (split; [tauto|reflexivity]).
    destruct (hasVoted roll' _); [split; [tauto|discriminate]|].
    destruct (has (votingSessions (mem w)) (Session.voterKey session)) eqn:Hfree;
      try (split; [tauto|reflexivity]).
    destruct (noSelection b); try (split; [tauto|reflexivity]).
    rewrite commit_attempt_exec.
    assert (forall (d : Disk) (m : Mem) (k : string),
              votingSessions (mem w) !! k = None ->
              votingSessions m = votingSessions (mem (locked (Session.voterKey session) w)) ->
              votingSessions (mem (unlocked (Session.voterKey session)
                                     (mkWorld (clock w) d m))) !! k = None) as Hfree'.
    { intros d m k Hk Hm. cbn. rewrite Hm. cbn.
      destruct (decide (Session.voterKey session = k)) as [->|Hne].
      - apply lookup_delete_eq.
      - rewrite lookup_delete_ne, lookup_insert_ne by assumption. assumption. }
    destruct (votes (disk w)) as [v|].
    + destruct (write votesFile _ _) as [ok1 d1].
      destruct (write studentsFile _ _) as [ok2 d2].
      destruct (ok1 && ok2); cbn [default]; (split; [|try discriminate; reflexivity]);
        intros k Hk; now apply Hfree'.
    + split; [|reflexivity]. intros k Hk. now apply (Hfree' (disk w) _ k Hk).
Qed.

(** ** Expiry *)

Lemma commit_attempt_result (b : VoteBody.t) (key : string) (info : Body)
    (roll : list Student) (w : World) :
  (exec (commit_attempt b key info roll) w).2 = Some VoteRecorded
  \/ (exec (commit_attempt b key info roll) w).2 = None.
Proof.
  rewrite commit_attempt_exec.
  destruct (votes (disk w)) as [v|]; [|right; reflexivity].
  destruct (write votesFile _ _) as [ok1 d1].
  destruct (write studentsFile _ _) as [ok2 d2].
  destruct (ok1 && ok2); [left|right]; reflexivity.
Qed.

(** A token that a session answers to is never told "expired": [vote]
    looks the token up and does not look at the session's age. *)
Lemma vote_known_token_not_expired (w : World) (b : VoteBody.t) (session : Session.t) :
  settings (disk w) = Some true ->
  Js.truthy (VoteBody.sessionToken b) = true ->
  verifiedSessions (mem w) !! VoteBody.sessionToken b = Some session ->
  (exec (vote b) w).2 <> Some SessionExpired.
Proof.
  intros Hs Htok Hsession. rewrite vote_exec. cbn zeta.
  rewrite Hs, Hsession, Htok. cbn [negb].
  destruct (students (disk w)) as [roll|]; [|discriminate].
  destruct (hasVoted roll _); [discriminate|].
  destruct (has _ _); [discriminate|].
  destruct (noSelection b); [discriminate|].
  destruct (commit_attempt_result b (Session.voterKey session)
              (Session.voterInfo session) roll w) as [Hr|Hr];
    destruct (exec (commit_attempt _ _ _ _) w) as [w' r]; cbn in *; subst r; discriminate.
Qed.

Lemma cleanup_session (now : Z) (m : Mem) (token : string) (session : Session.t) :
  verifiedSessions m !! token = Some session ->
  verifiedSessions (cleanup now m) !! token
  = if decide (now - Session.timestamp session > sessionTimeout) then None else Some session.
Proof.
  intros Hsession. cbn.
  destruct (decide (now - Session.timestamp session > sessionTimeout)) as [Hold|Hyoung].
  - apply map_lookup_filter_None. right. intros s Hs. rewrite Hsession in Hs.
    injection Hs as <-. cbn. tauto.
  - apply map_lookup_filter_Some. split; [assumption|]. cbn. assumption.
Qed.

(** The sweeps of a cleanup started at [start] run at
    [start + n * sweepInterval]; one of them falls in the sweep interval
    that follows the expiry of a session created at [created]. *)
Lemma sweep_after_expiry (start created : Z) :
  start <= created + sessionTimeout ->
  exists n : Z,
    1 <= n
    /\ created + sessionTimeout < start + n * sweepInterval
       <= created + sessionTimeout + sweepInterval.
Proof.
  intros Hstart. unfold sweepInterval, sessionTimeout in *.
  exists ((created + 10 * 60 * 1000 - start) / (5 * 60 * 1000) + 1).
  pose proof (Z.div_mod (created + 10 * 60 * 1000 - start) (5 * 60 * 1000)) as Hdm.
  pose proof (Z.mod_pos_bound (created + 10 * 60 * 1000 - start) (5 * 60 * 1000)) as Hmod.
  assert (0 <= (created + 10 * 60 * 1000 - start) / (5 * 60 * 1000))
    by (apply Z.div_pos; lia).
  lia.
Qed.

(** C7, as the code has it. With voting enabled, (a) a token whose session
    has been removed is refused with [SessionExpired]; (b) a token whose
    session is still in [verifiedSessions] is never refused with
    [SessionExpired], whatever the session's age: the handler compares no
    age with the ten minutes; (c) the session's timer removes it, and a
    cleanup at [now] removes it exactly when its age at [now] exceeds ten
    minutes; (d) a cleanup that runs every five minutes, started before the
    session expired, removes it no later than five minutes after it
    expired. *)
Theorem session_expiry_by_removal :
  forall (w : World) (clientIP : string) (b : VoteBody.t),
    admitted clientIP w = true ->
    settings (disk w) = Some true ->
    Js.truthy (VoteBody.sessionToken b) = true ->
    (verifiedSessions (mem w) !! VoteBody.sessionToken b = None ->
       exec (api_vote clientIP b) w = (counted clientIP w, Some SessionExpired))
    /\ (forall session,
          verifiedSessions (mem w) !! VoteBody.sessionToken b = Some session ->
          (exec (api_vote clientIP b) w).2 <> Some SessionExpired
          /\ verifiedSessions (expire (VoteBody.sessionToken b) (mem w))
               !! VoteBody.sessionToken b = None
          /\ (forall now,
                verifiedSessions (cleanup now (mem w)) !! VoteBody.sessionToken b
                = if decide (now - Session.timestamp session > sessionTimeout)
                  then None else Some session)
          /\ (forall start,
                start <= Session.timestamp session + sessionTimeout ->
                exists n : Z,
                  1 <= n
                  /\ Session.timestamp session + sessionTimeout
                     < start + n * sweepInterval
                     <= Session.timestamp session + sessionTimeout + sweepInterval
                  /\ verifiedSessions (cleanup (start + n * sweepInterval) (mem w))
                       !! VoteBody.sessionToken b = None)).
Proof.
  intros w clientIP b Hadm Hs Htok. unfold api_vote. rewrite exec_limited, Hadm. split.
  - intros Hgone. apply vote_unknown_token; [assumption|].
    cbn. unfold has. rewrite Hgone. apply andb_false_r.
  - intros session Hsession. split; [|split; [|split]].
    + now apply (vote_known_token_not_expired (counted clientIP w) b session).
    + cbn. apply lookup_delete_eq.
    + intros now. now apply cleanup_session.
    + intros start Hstart.
      destruct (sweep_after_expiry start (Session.timestamp session) Hstart)
        as (n & Hn & Hlo & Hhi).
      exists n. repeat split; try assumption.
      rewrite (cleanup_session _ _ _ session Hsession).
      destruct (decide _) as [_|Hyoung]; [reflexivity|lia].
Qed.

Lemma session_expiry_by_removal_witness :
  exec (api_vote Scenario.ip (Scenario.ballot Scenario.T2)) Scenario.overdue
  = (counted Scenario.ip Scenario.overdue, Some SessionExpired).
Proof.
  exact (proj1 (session_expiry_by_removal Scenario.overdue Scenario.ip
                  (Scenario.ballot Scenario.T2) eq_refl eq_refl eq_refl) eq_refl).
Defined.

(** C7 as stated fails: Jane's session is older than ten minutes, its
    timer has not run yet (a timer runs no earlier than its delay, and as
    late as the event loop gets to it), and her submission with the token of
    that session is recorded instead of being refused as expired. *)
Lemma overage_session_accepted :
  (exists session,
     verifiedSessions (mem Scenario.overdue) !! Scenario.T1 = Some session
     /\ clock Scenario.overdue - Session.timestamp session > sessionTimeout)
  /\ (exec (api_vote Scenario.ip (Scenario.ballot Scenario.T1)) Scenario.overdue).2
     = Some VoteRecorded
  /\ (exec (api_vote Scenario.ip (Scenario.ballot Scenario.T1)) Scenario.overdue).2
     <> Some SessionExpired.
Proof.
  split; [|split].
  - eexists. split; [vm_compute; reflexivity|]. vm_compute. reflexivity.
  - vm_compute. reflexivity.
  - vm_compute. discriminate.
Qed.

(** ** Voter identity *)

Section Strings.

Import Js.

#[local] Arguments is_space : simpl never.
#[local] Arguments lower_char : simpl never.

Lemma lower_char_idem (c : ascii) : lower_char (lower_char c) = lower_char c.
Proof. destruct c as [[] [] [] [] [] [] [] []]; reflexivity. Qed.

Lemma is_space_lower_char (c : ascii) : is_space (lower_char c) = is_space c.
Proof. destruct c as [[] [] [] [] [] [] [] []]; reflexivity. Qed.

Lemma toLowerCase_idem (s : string) : toLowerCase (toLowerCase s) = toLowerCase s.
Proof.
  induction s as [|c s IH]; cbn; [reflexivity|].
  now rewrite lower_char_idem, IH.
Qed.

Lemma trimStart_toLowerCase (s : string) :
  trimStart (toLowerCase s) = toLowerCase (trimStart s).
Proof.
  induction s as [|c s IH]; cbn; [reflexivity|].
  rewrite is_space_lower_char. destruct (is_space c); [exact IH|reflexivity].
Qed.

Lemma trimEnd_toLowerCase (s : string) :
  trimEnd (toLowerCase s) = toLowerCase (trimEnd s).
Proof.
  unfold toLowerCase. induction s as [|c s IH]; cbn; [reflexivity|].
  rewrite IH, is_space_lower_char.
  destruct (trimEnd s); cbn; [destruct (is_space c)|]; reflexivity.
Qed.

Lemma trim_toLowerCase (s : string) : trim (toLowerCase s) = toLowerCase (trim s).
Proof. unfold trim. now rewrite trimStart_toLowerCase, trimEnd_toLowerCase. Qed.

Lemma append_cons (c : ascii) (l s : string) : String c l +:+ s = String c (l +:+ s).
Proof. reflexivity. Qed.

Lemma trimStart_spaces (l : string) :
  all_chars is_space l = true -> forall s, trimStart (l +:+ s) = trimStart s.
Proof.
  induction l as [|c l IH]; cbn; intros Hl s; [reflexivity|].
  apply andb_prop in Hl as [Hc Hl]. rewrite append_cons. cbn. rewrite Hc. now apply IH.
Qed.

Lemma trimStart_all_spaces (r : string) :
  all_chars is_space r = true -> trimStart r = "".
Proof.
  induction r as [|c r IH]; cbn; intros Hr; [reflexivity|].
  apply andb_prop in Hr as [Hc Hr]. rewrite Hc. now apply IH.
Qed.

Lemma trimEnd_spaces (r : string) :
  all_chars is_space r = true -> trimEnd r = "".
Proof.
  induction r as [|c r IH]; cbn; intros Hr; [reflexivity|].
  apply andb_prop in Hr as [Hc Hr]. now rewrite (IH Hr), Hc.
Qed.

Lemma trimEnd_app_spaces (s r : string) :
  all_chars is_space r = true -> trimEnd (s +:+ r) = trimEnd s.
Proof.
  intros Hr. induction s as [|c s IH].
  - now apply trimEnd_spaces.
  - rewrite append_cons. cbn. now rewrite IH.
Qed.

Lemma trim_app_spaces (s r : string) :
  all_chars is_space r = true -> trim (s +:+ r) = trim s.
Proof.
  intros Hr. unfold trim. induction s as [|c s IH].
  - change ("" +:+ r) with r. now rewrite (trimStart_all_spaces r Hr).
  - rewrite append_cons. cbn [trimStart].
    destruct (is_space c); [exact IH|].
    now apply (trimEnd_app_spaces (String c s) r).
Qed.

(** White space around a string does not change what [trim] returns. *)
Lemma trim_padded (l s r : string) :
  all_chars is_space l = true -> all_chars is_space r = true ->
  trim (l +:+ s +:+ r) = trim s.
Proof.
  intros Hl Hr. unfold trim. rewrite (trimStart_spaces l Hl).
  now apply trim_app_spaces.
Qed.

Lemma trimEnd_idem (s : string) : trimEnd (trimEnd s) = trimEnd s.
Proof.
  induction s as [|c s IH]; cbn; [reflexivity|].
  destruct (trimEnd s) as [|c' s'] eqn:Hs.
  - destruct (is_space c) eqn:Hc; cbn; [reflexivity|]. now rewrite Hc.
  - cbn in *. now rewrite IH.
Qed.

Lemma trimStart_trimEnd (s : string) :
  trimStart (trimEnd (trimStart s)) = trimEnd (trimStart s).
Proof.
  induction s as [|c s IH]; cbn; [reflexivity|].
  destruct (is_space c) eqn:Hc; [exact IH|].
  cbn. destruct (trimEnd s); cbn; rewrite ?Hc; cbn; rewrite ?Hc; reflexivity.
Qed.

Lemma trim_idem (s : string) : trim (trim s) = trim s.
Proof. unfold trim. now rewrite trimStart_trimEnd, trimEnd_idem. Qed.

End Strings.

Lemma generateVoterKey_normal (name studentClass division dateOfBirth : string) :
  generateVoterKey name studentClass division dateOfBirth
  = Sha256.hex (Js.toLowerCase (Js.trim name) +:+ "_" +:+ Js.trim studentClass +:+ "_"
                  +:+ Js.trim division +:+ "_" +:+ dateOfBirth).
Proof. unfold generateVoterKey. now rewrite trim_toLowerCase. Qed.

(** C4, as the code has it. The key of a profile is the key of its normal
    form, and two profiles have the same key when their names differ only
    in letter case and surrounding white space and their classes and
    divisions differ only in surrounding white space (the date of birth
    being the same); in particular white space around any of the three and
    any change of case in the name leave the key as it is. The letter case
    of class and division is part of the key. The deployment without a
    date of birth behaves alike. *)
Theorem voter_key_normal_form :
  forall P P' : Profile.t,
    computeKey P = computeKey (normalize P)
    /\ (same_but_case_and_padding (Profile.name P) (Profile.name P') ->
        same_but_padding (Profile.studentClass P) (Profile.studentClass P') ->
        same_but_padding (Profile.division P) (Profile.division P') ->
        Profile.dateOfBirth P = Profile.dateOfBirth P' ->
        computeKey P = computeKey P'
        /\ generateVoterKey3 (Profile.name P) (Profile.studentClass P) (Profile.division P)
           = generateVoterKey3 (Profile.name P') (Profile.studentClass P')
               (Profile.division P'))
    /\ (forall l1 r1 l2 r2 l3 r3 name : string,
          Js.all_chars Js.is_space (l1 +:+ r1 +:+ l2 +:+ r2 +:+ l3 +:+ r3) = true ->
          Js.toLowerCase name = Js.toLowerCase (Profile.name P) ->
          computeKey (Profile.mk (l1 +:+ name +:+ r1)
                        (l2 +:+ Profile.studentClass P +:+ r2)
                        (l3 +:+ Profile.division P +:+ r3) (Profile.dateOfBirth P))
          = computeKey P).
Proof.
  intros [n c d dob] [n' c' d' dob']. unfold computeKey, normalize.
  cbn [Profile.name Profile.studentClass Profile.division Profile.dateOfBirth].
  split; [|split].
  - rewrite !generateVoterKey_normal.
    now rewrite trim_toLowerCase, toLowerCase_idem, !trim_idem.
  - unfold same_but_case_and_padding, same_but_padding. intros Hn Hc Hd ->.
    rewrite !generateVoterKey_normal. unfold generateVoterKey3.
    rewrite !trim_toLowerCase. now rewrite Hn, Hc, Hd.
  - intros l1 r1 l2 r2 l3 r3 name Hws Hname.
    assert (forall a b, Js.all_chars Js.is_space (a +:+ b) = true ->
              Js.all_chars Js.is_space a = true /\ Js.all_chars Js.is_space b = true)
      as Hsplit.
    { induction a as [|x a IH]; cbn; intros b Hab; [now split|].
      apply andb_prop in Hab as [Hx Hab]. destruct (IH b Hab) as [Ha Hb].
      split; [now rewrite Hx, Ha|assumption]. }
    apply Hsplit in Hws as [Hl1 Hws]. apply Hsplit in Hws as [Hr1 Hws].
    apply Hsplit in Hws as [Hl2 Hws]. apply Hsplit in Hws as [Hr2 Hws].
    apply Hsplit in Hws as [Hl3 Hr3].
    rewrite !generateVoterKey_normal, !trim_padded by assumption.
    now rewrite <- !trim_toLowerCase, Hname.
Qed.

Lemma voter_key_normal_form_witness :
  computeKey (Profile.mk "  JANE Doe " " 10" "A  " "2010-01-01")
  = computeKey (Profile.mk "Jane Doe" "10" "A" "2010-01-01").
Proof.
  exact (proj1 (proj1 (proj2 (voter_key_normal_form
           (Profile.mk "  JANE Doe " " 10" "A  " "2010-01-01")
           (Profile.mk "Jane Doe" "10" "A" "2010-01-01")))
           eq_refl eq_refl eq_refl eq_refl)).
Defined.

(** C4 as stated fails: two profiles that differ only in the letter case of
    the class (or of the division) have different keys. *)
Lemma class_case_changes_key :
  same_but_case_and_padding "10a" "10A"
  /\ computeKey (Profile.mk "Jane Doe" "10a" "A" "2010-01-01")
     <> computeKey (Profile.mk "Jane Doe" "10A" "A" "2010-01-01")
  /\ computeKey (Profile.mk "Jane Doe" "10" "a" "2010-01-01")
     <> computeKey (Profile.mk "Jane Doe" "10" "A" "2010-01-01")
  /\ generateVoterKey3 "Jane Doe" "10a" "A" <> generateVoterKey3 "Jane Doe" "10A" "A".
Proof. vm_compute. repeat split; discriminate. Qed.

(** ** One vote per key, for requests served one at a time *)

Section Terminal.

Context `{JsDate}.

Lemma rollEntry_voterKey (key : string) (info : Body) (now : Z) (b : VoteBody.t) :
  info !! "voterKey" = None ->
  rollEntry key info now b !! "voterKey" = Some (JStr key).
Proof.
  intros Hown. unfold rollEntry.
  rewrite !lookup_insert_ne by discriminate.
  rewrite lookup_union_r by (rewrite lookup_fmap, Hown; reflexivity).
  apply lookup_singleton_eq.
Qed.

Lemma hasVoted_app (roll more : list Student) (key : string) :
  hasVoted (roll ++ more) key = hasVoted roll key || hasVoted more key.
Proof. unfold hasVoted. apply existsb_app. Qed.

Lemma check_voter_disk (w : World) (fresh : string) (voterInfo : Body) :
  disk (exec (check_voter fresh voterInfo) w).1 = disk w.
Proof.
  unfold check_voter. rewrite exec_try_catch. cbn.
  destruct (Validation.valid _); cbn; [|reflexivity].
  destruct (students (disk w)) as [roll|]; cbn; [|reflexivity].
  destruct (hasVoted roll _); cbn; [reflexivity|].
  destruct (has _ _); reflexivity.
Qed.

Lemma write_students (roll : list Student) (d : Disk) :
  ((write studentsFile roll d).1 = true ->
   students (write studentsFile roll d).2 = Some roll)
  /\ (students (write studentsFile roll d).2 = students d
      \/ students (write studentsFile roll d).2 = None
      \/ students (write studentsFile roll d).2 = Some roll).
Proof.
  unfold write. destruct (failing d studentsFile) as [[]|]; cbn;
    (split; [try discriminate; reflexivity|auto]).
Qed.

Lemma write_votes_students (v : Votes) (d : Disk) :
  students (write votesFile v d).2 = students d.
Proof. unfold write. destruct (failing d votesFile) as [[]|]; reflexivity. Qed.

Lemma write_settings_students (enabled : bool) (d : Disk) :
  students (write settingsFile enabled d).2 = students d.
Proof. unfold write. destruct (failing d settingsFile) as [[]|]; reflexivity. Qed.

Ltac roll_kept :=
  split; [discriminate | left; first [reflexivity | assumption]].

(** What [vote] leaves on the roll: the roll it found, a file that reads
    no more, or the roll it found with the entry of the session's voter
    appended, the latter whenever it answers "recorded". *)
Lemma vote_roll (w : World) (b : VoteBody.t) :
  let '(w', r) := exec (vote b) w in
  (r = Some VoteRecorded ->
   exists roll session,
     students (disk w) = Some roll
     /\ verifiedSessions (mem w) !! VoteBody.sessionToken b = Some session
     /\ students (disk w')
        = Some (roll ++ [rollEntry (Session.voterKey session)
                           (Session.voterInfo session) (clock w) b])%list)
  /\ (students (disk w') = students (disk w)
      \/ students (disk w') = None
      \/ exists roll session,
           students (disk w) = Some roll
           /\ students (disk w')
              = Some (roll ++ [rollEntry (Session.voterKey session)
                                 (Session.voterInfo session) (clock w) b])%list).
Proof.
  rewrite vote_exec. cbn zeta.
  destruct (settings (disk w)) as [[|]|];
    try roll_kept.
  destruct (verifiedSessions (mem w) !! VoteBody.sessionToken b) as [session|];
    try roll_kept.
  destruct (negb _); try roll_kept.
  destruct (students (disk w)) as [roll|] eqn:Hroll;
    try roll_kept.
  destruct (hasVoted roll _); try roll_kept.
  destruct (has _ _); try roll_kept.
  destruct (noSelection b); try roll_kept.
  rewrite commit_attempt_exec.
  destruct (votes (disk w)) as [v|];
    [|roll_kept].
  pose proof (write_votes_students (recordVotes b v) (disk w)) as Hv.
  destruct (write votesFile _ _) as [ok1 d1]. cbn in Hv.
  pose proof (write_students
                (roll ++ [rollEntry (Session.voterKey session)
                            (Session.voterInfo session) (clock w) b]) d1) as [Hok Hs].
  destruct (write studentsFile _ _) as [ok2 d2]. cbn in Hok, Hs.
  rewrite Hv, Hroll in Hs.
  assert (students d2 = Some roll \/ students d2 = None
          \/ exists roll0 session0,
               Some roll = Some roll0
               /\ students d2
                  = Some (roll0 ++ [rollEntry (Session.voterKey session0)
                                      (Session.voterInfo session0) (clock w) b])%list)
    as Hafter.
  { destruct Hs as [Hs|[Hs|Hs]]; [left|right; left|right; right]; try assumption.
    exists roll, session. split; [reflexivity|assumption]. }
  destruct ok1, ok2; cbn [andb default fst snd disk]; (split; [|exact Hafter]);
    try discriminate.
  intros _. exists roll, session. split; [reflexivity|]. split; [reflexivity|].
  now apply Hok.
Qed.

Lemma vote_keeps_entered (w : World) (request : VoteRequest) (key : string) :
  entered w key -> entered (exec (vote request) w).1 key.
Proof.
  destruct request as [b|]; [|now rewrite vote_token_not_string].
  unfold entered. intros Hentered. pose proof (vote_roll w b) as Hroll.
  destruct (exec (vote b) w) as [w' r]. cbn.
  destruct Hroll as [_ [Hsame|[Hnone|(roll & session & Hw & Hw')]]].
  - now rewrite Hsame.
  - now rewrite Hnone.
  - rewrite Hw', hasVoted_app. rewrite Hw in Hentered. now rewrite Hentered.
Qed.

Lemma happen_keeps_entered (e : Event) (w : World) (key : string) :
  e <> Reset -> entered w key -> entered (happen e w).1 key.
Proof.
  intros Hreset Hentered.
  destruct e as [ip fresh info|ip request|enabled| |dt|token| |f how]; unfold happen.
  - unfold api_check_voter. rewrite exec_limited.
    destruct (admitted ip w); [|exact Hentered].
    unfold entered. now rewrite check_voter_disk.
  - unfold api_vote. rewrite exec_limited.
    destruct (admitted ip w); [|exact Hentered].
    now apply vote_keeps_entered.
  - unfold post_settings, entered in *. cbn.
    pose proof (write_settings_students enabled (disk w)) as Hs.
    destruct (write settingsFile enabled (disk w)) as [ok d1]. cbn in Hs.
    destruct ok; [destruct enabled|]; cbn; now rewrite Hs.
  - contradiction.
  - exact Hentered.
  - destruct (existsb _ _); exact Hentered.
  - exact Hentered.
  - exact Hentered.
Qed.

Lemma happen_all_keeps_entered (es : list Event) :
  forall (w : World) (key : string),
    Forall (fun e => e <> Reset) es ->
    entered w key -> entered (happen_all es w).1 key.
Proof.
  induction es as [|e es IH]; intros w key Hes Hentered; [exact Hentered|].
  apply Forall_cons in Hes as [He Hes].
  cbn [happen_all]. pose proof (happen_keeps_entered e w key He Hentered) as Hw1.
  destruct (happen e w) as [w1 r]. cbn in Hw1.
  specialize (IH w1 key Hes Hw1). destruct (happen_all es w1) as [w2 rs]. exact IH.
Qed.

(** X1. The part of C1 the code keeps, for a verification form without a
    [voterKey] property of its own and requests served one at a time. Once
    a submission is answered "recorded", the roll holds an entry for the
    session's key, and nothing the server does afterwards, the
    administrator's reset apart (verifications, submissions with any
    token, changes of the settings, the passing of time, timers, the
    cleanup, writes that fail and leave their file untouched, cut or
    written), verifies that key again: as long as the roll can be read it
    holds an entry for the key and every later verification for the key
    that passes the rate limiter and the validation is answered "already
    voted"; once a failed write has left the roll unreadable the answer is
    "verification failed". *)
Theorem roll_entry_is_terminal :
  forall (w : World) (clientIP : string) (b : VoteBody.t) (session : Session.t),
    verifiedSessions (mem w) !! VoteBody.sessionToken b = Some session ->
    Session.voterInfo session !! "voterKey" = None ->
    (exec (api_vote clientIP b) w).2 = Some VoteRecorded ->
    voted (exec (api_vote clientIP b) w).1 (Session.voterKey session) = true
    /\ forall (es : list Event) (clientIP' fresh : string) (voterInfo : Body),
         let w' := (happen_all es (exec (api_vote clientIP b) w).1).1 in
         Forall (fun e => e <> Reset) es ->
         keyOf voterInfo = Session.voterKey session ->
         admitted clientIP' w' = true ->
         Validation.valid (validateVoterInfo (clock w') voterInfo) = true ->
         (rollReadable w' = true ->
            voted w' (Session.voterKey session) = true
            /\ exec (api_check_voter clientIP' fresh voterInfo) w'
               = (counted clientIP' w', Some AlreadyVoted))
         /\ (rollReadable w' = false ->
             exec (api_check_voter clientIP' fresh voterInfo) w'
             = (counted clientIP' w', Some VerificationFailed)).
Proof.
  intros w clientIP b session Hsession Hown Hrecorded.
  assert (voted (exec (api_vote clientIP b) w).1 (Session.voterKey session) = true)
    as Hvoted.
  { unfold api_vote in *. rewrite exec_limited in *.
    destruct (admitted clientIP w); [|discriminate].
    pose proof (vote_roll (counted clientIP w) b) as Hroll.
    destruct (exec (vote b) (counted clientIP w)) as [w1 r]. cbn in *.
    destruct Hroll as [Hr _].
    destruct (Hr Hrecorded) as (roll & session' & _ & Hs & Hw1).
    rewrite Hsession in Hs. injection Hs as <-.
    unfold voted. rewrite Hw1, hasVoted_app. apply orb_true_iff. right.
    unfold hasVoted. cbn [existsb]. rewrite (rollEntry_voterKey _ _ _ _ Hown).
    now rewrite bool_decide_eq_true_2. }
  split; [exact Hvoted|].
  intros es clientIP' fresh voterInfo w' Hes Hkey Hadm Hvalid.
  assert (entered w' (Session.voterKey session)) as Hentered.
  { apply happen_all_keeps_entered; [exact Hes|].
    unfold entered. unfold voted in Hvoted.
    destruct (students (disk (exec (api_vote clientIP b) w).1)); [exact Hvoted|exact I]. }
  unfold entered in Hentered.
  unfold api_check_voter. rewrite exec_limited, Hadm. unfold rollReadable, voted.
  destruct (students (disk w')) as [roll|] eqn:Hroll; (split; [|]); try discriminate.
  - intros _. split; [exact Hentered|].
    apply (check_voter_voted (counted clientIP' w') fresh voterInfo roll).
    + exact Hvalid.
    + exact Hroll.
    + now rewrite Hkey.
  - intros _. unfold check_voter. rewrite exec_try_catch. cbn.
    change (clock (counted clientIP' w')) with (clock w').
    rewrite Hvalid. cbn.
    change (students (disk (counted clientIP' w'))) with (students (disk w')).
    rewrite Hroll. cbn. reflexivity.
Qed.

End Terminal.

Lemma roll_entry_is_terminal_witness :
  exec (@api_check_voter isoDate Scenario.ip Scenario.T2 Scenario.jane)
    (@happen_all isoDate [Tick 1000; Interval; Fault studentsFile (Some Damaged)]
       (exec (api_vote Scenario.ip (Scenario.ballot Scenario.T1)) Scenario.verified1).1).1
  = (counted Scenario.ip
       (@happen_all isoDate [Tick 1000; Interval; Fault studentsFile (Some Damaged)]
          (exec (api_vote Scenario.ip (Scenario.ballot Scenario.T1))
             Scenario.verified1).1).1,
     Some AlreadyVoted).
Proof.
  destruct (@roll_entry_is_terminal isoDate Scenario.verified1 Scenario.ip
              (Scenario.ballot Scenario.T1)
              (Session.mk Scenario.janeKey Scenario.jane 1700000000000 true))
    as [_ Hlater]; [vm_compute; reflexivity..|].
  destruct (Hlater [Tick 1000; Interval; Fault studentsFile (Some Damaged)]
              Scenario.ip Scenario.T2 Scenario.jane) as [Hreadable _];
    [repeat constructor; discriminate|vm_compute; reflexivity..|].
  refine (proj2 (Hreadable _)).
  vm_compute. reflexivity.
Defined.

(** ** Submissions served one at a time *)

(** X2. A submission that finds the lock of its key taken is refused at
    once: it changes nothing and does not wait for the lock. *)
Theorem vote_while_locked_fails_fast :
  forall (w : World) (b : VoteBody.t) (session : Session.t) (entries : list Student),
    settings (disk w) = Some true ->
    Js.truthy (VoteBody.sessionToken b) = true ->
    verifiedSessions (mem w) !! VoteBody.sessionToken b = Some session ->
    students (disk w) = Some entries ->
    hasVoted entries (Session.voterKey session) = false ->
    has (votingSessions (mem w)) (Session.voterKey session) = true ->
    exec (vote b) w = (w, Some SubmissionInProgress).
Proof.
  intros w b session entries Hs Htok Hsession Hroll Hnot Hlock.
  rewrite vote_exec. cbn zeta. now rewrite Hs, Hsession, Htok, Hroll, Hnot, Hlock.
Qed.

Lemma vote_while_locked_fails_fast_witness :
  exec (vote (Scenario.ballot Scenario.T1)) (world Scenario.in_flight)
  = (world Scenario.in_flight, Some SubmissionInProgress).
Proof.
  apply (vote_while_locked_fails_fast (world Scenario.in_flight)
           (Scenario.ballot Scenario.T1)
           (Session.mk Scenario.janeKey Scenario.jane 1700000000000 true) []);
    vm_compute; reflexivity.
Defined.

Lemma vote_without_session (w : World) (b : VoteBody.t) :
  verifiedSessions (mem w) !! VoteBody.sessionToken b = None ->
  (exec (vote b) w).2 <> Some VoteRecorded.
Proof.
  intros Hgone. rewrite vote_exec. cbn zeta. rewrite Hgone.
  destruct (settings (disk w)) as [[|]|]; discriminate.
Qed.

(** X3. A submission answered "recorded" has removed its session, and the
    same token submitted again, once the first submission has been served,
    is not recorded a second time. *)
Theorem recorded_vote_ends_session :
  forall (w : World) (clientIP clientIP' : string) (b : VoteBody.t),
    (exec (api_vote clientIP b) w).2 = Some VoteRecorded ->
    let w' := (exec (api_vote clientIP b) w).1 in
    verifiedSessions (mem w') !! VoteBody.sessionToken b = None
    /\ (exec (api_vote clientIP' b) w').2 <> Some VoteRecorded.
Proof.
  intros w clientIP clientIP' b Hrecorded w'.
  assert (verifiedSessions (mem w') !! VoteBody.sessionToken b = None) as Hgone.
  { subst w'. unfold api_vote in *. rewrite exec_limited in *.
    destruct (admitted clientIP w); [|discriminate].
    rewrite vote_exec in *. cbn zeta in *.
    destruct (settings (disk (counted clientIP w))) as [[|]|]; try discriminate.
    destruct (verifiedSessions (mem (counted clientIP w)) !! VoteBody.sessionToken b)
      as [session|]; try discriminate.
    destruct (negb _); try discriminate.
    destruct (students (disk (counted clientIP w))) as [entries|]; try discriminate.
    destruct (hasVoted entries _); try discriminate.
    destruct (has _ _); try discriminate.
    destruct (noSelection b); try discriminate.
    rewrite commit_attempt_exec in *.
    destruct (votes (disk (counted clientIP w))) as [v|]; try discriminate.
    destruct (write votesFile _ _) as [ok1 d1].
    destruct (write studentsFile _ _) as [ok2 d2].
    destruct (ok1 && ok2); try discriminate.
    cbn. apply lookup_delete_eq. }
  split; [exact Hgone|].
  unfold api_vote. rewrite exec_limited.
  destruct (admitted clientIP' w'); [|discriminate].
  now apply vote_without_session.
Qed.

Lemma recorded_vote_ends_session_witness :
  let w' := (exec (api_vote Scenario.ip (Scenario.ballot Scenario.T1)) Scenario.verified1).1 in
  verifiedSessions (mem w') !! VoteBody.sessionToken (Scenario.ballot Scenario.T1) = None
  /\ (exec (api_vote Scenario.ip (Scenario.ballot Scenario.T1)) w').2 <> Some VoteRecorded.
Proof.
  apply (recorded_vote_ends_session Scenario.verified1 Scenario.ip Scenario.ip
           (Scenario.ballot Scenario.T1)).
  vm_compute. reflexivity.
Defined.

(** ** Where the code departs from the specification *)

(** C1, on the code. The roll entry is built as
    [{ voterKey, ...voterInfo, ... }] and [voterInfo] is the whole request
    body, so a form that carries a [voterKey] property of its own replaces
    the computed key in the entry. Jane's form with such a property has
    Jane's key; she verifies and votes, the roll then holds no entry for her
    key, her next verification succeeds instead of answering "already
    voted", and her second vote is counted too. *)
Theorem roll_key_overridden_by_form :
  let '(w, answers) := @happen_all isoDate Scenario.twice Scenario.world0 in
  keyOf Scenario.jane' = Scenario.janeKey
  /\ Validation.valid (@validateVoterInfo isoDate (clock Scenario.world0) Scenario.jane') = true
  /\ answers = [Some (Verified Scenario.T1); Some VoteRecorded;
                Some (Verified Scenario.T2); Some VoteRecorded]
  /\ ((fun entries => hasVoted entries Scenario.janeKey) <$> Scenario.roll w) = Some false
  /\ (map (fun entry => entry !! "voterKey") <$> Scenario.roll w)
     = Some [Some (JStr "x"); Some (JStr "x")]
  /\ Scenario.tally w "Alice" = Some 2.
Proof. vm_compute. repeat split. Qed.

(** C2, on the code. Two submissions with the same token, in flight
    together: the roll is read at line 563 and the lock is tested at line
    572, with an [await] in between and none between the test and the
    taking of the lock. When the second submission's roll is read before
    the first one writes it, and the second goes on after the first has
    released the lock, both are recorded: two successes, the candidate
    credited twice, one entry on the roll. *)
Theorem same_token_race_counts_twice :
  let s := schedule Scenario.race (mkSystem Scenario.verified1 []) in
  Scenario.tally Scenario.verified1 "Alice" = None
  /\ map response (tasks s) = [Some VoteRecorded; Some VoteRecorded]
  /\ Scenario.tally (world s) "Alice" = Some 2
  /\ (length <$> Scenario.roll (world s)) = Some 1%nat
  /\ votingSessions (mem (world s)) = ∅.
Proof. vm_compute. repeat split. Qed.

(** C3, on the code. The tally is written, then the roll; when the roll
    write fails the submission answers "error recording vote", the tally
    keeps the credit, the roll has no entry for the voter, and session and
    token stay valid. The retry is then recorded and credits the candidate
    a second time. *)
Theorem torn_commit_then_retry_counts_twice :
  let '(w1, answers1) := @happen_all isoDate Scenario.torn Scenario.verified1 in
  let '(w2, answers2) := @happen_all isoDate Scenario.retry w1 in
  answers1 = [None; Some CommitFailed]
  /\ Scenario.tally w1 "Alice" = Some 1
  /\ Scenario.roll w1 = Some []
  /\ has (verifiedSessions (mem w1)) Scenario.T1 = true
  /\ has (votingSessions (mem w1)) Scenario.janeKey = false
  /\ answers2 = [None; Some VoteRecorded]
  /\ Scenario.tally w2 "Alice" = Some 2
  /\ (length <$> Scenario.roll w2) = Some 1%nat.
Proof. vm_compute. repeat split. Qed.

(** C9, on the code. The lock is released on every path, but a failed
    commit can still leave the key blocked for good. The tally is written,
    then the roll, and the second write is made whether or not the first
    succeeded: when the tally write fails and the roll write succeeds the
    submission answers "error recording vote", releases the lock and keeps
    the session, while the roll now holds the voter and the tally holds no
    vote. The retry with the same token is refused with "vote already
    recorded", a new verification with "already voted", and the vote is
    never counted. *)
Theorem failed_tally_write_blocks_voter :
  let '(w1, answers1) := @happen_all isoDate Scenario.lost Scenario.verified1 in
  let '(w2, answers2) := @happen_all isoDate Scenario.again w1 in
  answers1 = [None; Some CommitFailed]
  /\ has (votingSessions (mem w1)) Scenario.janeKey = false
  /\ has (verifiedSessions (mem w1)) Scenario.T1 = true
  /\ Scenario.tally w1 "Alice" = None
  /\ ((fun entries => hasVoted entries Scenario.janeKey) <$> Scenario.roll w1) = Some true
  /\ answers2 = [None; Some VoteAlreadyRecorded; Some AlreadyVoted]
  /\ Scenario.tally w2 "Alice" = None
  /\ has (verifiedSessions (mem w2)) Scenario.T1 = false.
Proof. vm_compute. repeat split. Qed.

(** ** Instances of the general statements *)

Lemma rateLimit_fixed_window_witness :
  (rateLimit_many 60000 20 Scenario.ip (0 :: repeat 1000 24) ∅).1
  = true :: (repeat true 19 ++ repeat false 5)%list.
Proof.
  exact (proj1 (proj2 (proj2 (rateLimit_fixed_window 60000 20 Scenario.ip 0 ∅)))
           (repeat 1000 24) eq_refl
           ltac:(repeat constructor; vm_compute; discriminate)).
Defined.

Lemma commit_attempt_lock_released_witness :
  let '(w', r) :=
    exec (commit_attempt (Scenario.ballot Scenario.T1) "k" ∅ []) Scenario.world0 in
  votingSessions (mem w') !! "k" = None
  /\ (r = Some VoteRecorded \/ r = None).
Proof.
  exact (proj1 (proj2 (commit_attempt_lock_released Scenario.world0
                         (Scenario.ballot Scenario.T1) "k" ∅ []))).
Defined.

(** ** SHA-256 on the standard test messages *)

Example sha256_constants :
  length Sha256.K = 64%nat /\ nth 0 Sha256.K 0 = 0x428a2f98 /\ nth 63 Sha256.K 0 = 0xc67178f2
  /\ length Sha256.H0 = 8%nat /\ nth 0 Sha256.H0 0 = 0x6a09e667 /\ nth 7 Sha256.H0 0 = 0x5be0cd19.
Proof. vm_compute. repeat split. Qed.

Example sha256_abc :
  Sha256.hex "abc" = "ba7816bf8f01cfea414140de5dae2223b00361a396177a9cb410ff61f20015ad".
Proof. vm_compute. reflexivity. Qed.

Example sha256_empty :
  Sha256.hex "" = "e3b0c44298fc1c149afbf4c8996fb92427ae41e4649b934ca495991b7852b855".
Proof. vm_compute. reflexivity. Qed.

Example sha256_two_blocks :
  Sha256.hex "abcdbcdecdefdefgefghfghighijhijkijkljklmklmnlmnomnopnopq"
  = "248d6a61d20638b8e5c026930c3e6039a33ce45964ff2167f6ecedd419db06c1".
Proof. vm_compute. reflexivity. Qed.

Example jane_key :
  Scenario.janeKey = "99c7e13d6fc9ffdb5679b105b911310f93eba48558c0f436384b55c7b3d8bbea".
Proof. vm_compute. reflexivity. Qed.

(** * Further properties of the server *)

Ltac differ := let E := fresh "E" in intros E; cbn in E; discriminate E.

(** ** POST /api/check-voter *)

Section CheckVoterFrame.

Context `{JsDate}.

Lemma check_voter_exec (w : World) (fresh : string) (voterInfo : Body) :
  exec (check_voter fresh voterInfo) w
  = let validation := validateVoterInfo (clock w) voterInfo in
    if negb (Validation.valid validation) then
      (w, Some (json 400 false (Validation.message validation)))
    else
      match students (disk w) with
      | None => (w, Some VerificationFailed)
      | Some entries =>
          if hasVoted entries (keyOf voterInfo) then (w, Some AlreadyVoted)
          else if has (votingSessions (mem w)) (keyOf voterInfo) then
            (w, Some SessionInProgress)
          else
            (mkWorld (clock w) (disk w)
               (set_timers (fun l => (l ++ [(clock w + sessionTimeout, fresh)])%list)
                  (set_verifiedSessions
                     (insert fresh (Session.mk (keyOf voterInfo) voterInfo (clock w) true))
                     (mem w))),
             Some (Verified fresh))
      end.
Proof.
  unfold check_voter, keyOf. rewrite exec_try_catch. cbn.
  destruct w as [now d m]. cbn.
  destruct (Validation.valid _); cbn; [|reflexivity].
  destruct (students d) as [entries|]; cbn; [|reflexivity].
  destruct (hasVoted entries _); cbn; [reflexivity|].
  destruct (has (votingSessions m) _); reflexivity.
Qed.

(** What one [/api/check-voter] request does to the world. *)
Lemma check_voter_effect :
  forall (w : World) (clientIP fresh : string) (voterInfo : Body),
    exists r : Res.t,
      let w' := (exec (api_check_voter clientIP fresh voterInfo) w).1 in
      (exec (api_check_voter clientIP fresh voterInfo) w).2 = Some r
      /\ disk w' = disk w
      /\ clock w' = clock w
      /\ votingSessions (mem w') = votingSessions (mem w)
      /\ verifiedSessions (mem w')
         = (if Res.success r then
              <[fresh := Session.mk (keyOf voterInfo) voterInfo (clock w) true]>
                (verifiedSessions (mem w))
            else verifiedSessions (mem w))
      /\ timers (mem w')
         = (if Res.success r then (timers (mem w) ++ [(clock w + sessionTimeout, fresh)])%list
            else timers (mem w))
      /\ (Res.success r = true <-> r = Verified fresh)
      /\ (Validation.valid (validateVoterInfo (clock w) voterInfo) = false ->
          admitted clientIP w = true ->
          r = json 400 false (Validation.message (validateVoterInfo (clock w) voterInfo))).
Proof.
  intros w clientIP fresh voterInfo. unfold api_check_voter.
  rewrite exec_limited. destruct (admitted clientIP w).
  2:{ exists RateLimited. cbn. repeat split; try discriminate. }
  rewrite check_voter_exec. cbn zeta.
  change (clock (counted clientIP w)) with (clock w).
  destruct (Validation.valid (validateVoterInfo (clock w) voterInfo)); cbn [negb].
  2:{ eexists. cbn. repeat split; try discriminate. }
  change (students (disk (counted clientIP w))) with (students (disk w)).
  destruct (students (disk w)) as [entries|].
  2:{ exists VerificationFailed. cbn. repeat split; try discriminate. }
  destruct (hasVoted entries _).
  { exists AlreadyVoted. cbn. repeat split; try discriminate. }
  change (votingSessions (mem (counted clientIP w))) with (votingSessions (mem w)).
  destruct (has _ _).
  { exists SessionInProgress. cbn. repeat split; try discriminate. }
  exists (Verified fresh). cbn. repeat split; discriminate.
Qed.

(** X5. [/api/check-voter] always answers; it never writes a data file and
    never touches the voting locks; it creates a session exactly when it
    answers success, then under the fresh token, with the key of the form
    and the time of the request, and registers that token's timer; any
    other answer (a form that fails validation, answered with status 400
    and the validation message, included) leaves sessions and timers as
    they were. *)
Theorem check_voter_frame :
  forall (w : World) (clientIP fresh : string) (voterInfo : Body),
    exists r : Res.t,
      let w' := (exec (api_check_voter clientIP fresh voterInfo) w).1 in
      (exec (api_check_voter clientIP fresh voterInfo) w).2 = Some r
      /\ disk w' = disk w
      /\ clock w' = clock w
      /\ votingSessions (mem w') = votingSessions (mem w)
      /\ verifiedSessions (mem w')
         = (if Res.success r then
              <[fresh := Session.mk (keyOf voterInfo) voterInfo (clock w) true]>
                (verifiedSessions (mem w))
            else verifiedSessions (mem w))
      /\ timers (mem w')
         = (if Res.success r then (timers (mem w) ++ [(clock w + sessionTimeout, fresh)])%list
            else timers (mem w))
      /\ (Res.success r = true <-> r = Verified fresh)
      /\ (Validation.valid (validateVoterInfo (clock w) voterInfo) = false ->
          admitted clientIP w = true ->
          r = json 400 false (Validation.message (validateVoterInfo (clock w) voterInfo))).
Proof. exact check_voter_effect. Qed.

End CheckVoterFrame.

(** ** POST /api/vote *)

Lemma relock (key : string) (now : Z) (locks : gmap string Z) :
  has locks key = false -> delete key (<[key := now]> locks) = locks.
Proof.
  unfold has. intros Hfree. apply delete_insert_id.
  destruct (locks !! key); [discriminate|reflexivity].
Qed.

Lemma outcome_rejected (b : VoteBody.t) (w : World) (r : Res.t) :
  r <> VoteRecorded -> r <> VoteAlreadyRecorded -> vote_outcome b w w r.
Proof.
  intros Hr1 Hr2. unfold vote_outcome.
  repeat split; try reflexivity; try (intros; contradiction).
  intros [Hr|Hr]; contradiction.
Qed.

(** A commit that failed: the lock is back as it was, the session kept,
    tally and roll as the writes left them. *)
Lemma outcome_commit_failed (b : VoteBody.t) (w : World) (d : Disk) (key : string) :
  has (votingSessions (mem w)) key = false ->
  settings d = settings (disk w) ->
  (forall f, failing d f = failing (disk w) f) ->
  vote_outcome b w (unlocked key (on_disk d (locked key w))) CommitFailed.
Proof.
  intros Hfree Hset Hfail. unfold vote_outcome. cbn.
  repeat split; try reflexivity; try assumption; try discriminate.
  - now apply relock.
  - intros [Hr|Hr]; discriminate Hr.
  - intros _ Hr. now contradiction Hr.
Qed.

(** The two writes of a commit: neither touches the settings or changes
    which writes fail, and when both succeed the files hold what was
    written. *)
Lemma commit_writes (v : Votes) (roll : list Student) (d : Disk) :
  let '(ok1, d1) := write votesFile v d in
  let '(ok2, d2) := write studentsFile roll d1 in
  settings d2 = settings d
  /\ (forall f, failing d2 f = failing d f)
  /\ (ok1 && ok2 = true -> votes d2 = Some v /\ students d2 = Some roll).
Proof.
  unfold write.
  destruct (failing d votesFile) as [[]|] eqn:Hv; cbn; rewrite ?Hv;
    destruct (failing d studentsFile) as [[]|] eqn:Hs; cbn;
    repeat split; try discriminate; reflexivity.
Qed.

Lemma vote_outcome_alone (b : VoteBody.t) (w : World) :
  exists r, (exec (vote b) w).2 = Some r /\ vote_outcome b w (exec (vote b) w).1 r.
Proof.
  rewrite vote_exec. cbn zeta.
  destruct (settings (disk w)) as [[|]|] eqn:Hset;
    try (eexists; split; [reflexivity|]; now apply outcome_rejected).
  destruct (verifiedSessions (mem w) !! VoteBody.sessionToken b) as [session|] eqn:Hsession;
    try (eexists; split; [reflexivity|]; now apply outcome_rejected).
  destruct (negb _);
    try (eexists; split; [reflexivity|]; now apply outcome_rejected).
  destruct (students (disk w)) as [entries|] eqn:Hentries;
    try (eexists; split; [reflexivity|]; now apply outcome_rejected).
  destruct (hasVoted entries _) eqn:Hvoted.
  { eexists; split; [reflexivity|]. unfold vote_outcome. cbn.
    repeat split; try reflexivity; try discriminate.
    intros _ Hr. now contradiction Hr. }
  destruct (has (votingSessions (mem w)) _) eqn:Hfree;
    try (eexists; split; [reflexivity|]; now apply outcome_rejected).
  destruct (noSelection b) eqn:Hsel;
    try (eexists; split; [reflexivity|]; now apply outcome_rejected).
  rewrite commit_attempt_exec.
  destruct (votes (disk w)) as [v|] eqn:Hvotes.
  2:{ eexists; split; [reflexivity|].
      apply (outcome_commit_failed b w (disk w)); [assumption|reflexivity|reflexivity]. }
  pose proof (commit_writes (recordVotes b v)
                (entries ++ [rollEntry (Session.voterKey session)
                               (Session.voterInfo session) (clock w) b]) (disk w))
    as Hwrites.
  destruct (write votesFile _ _) as [ok1 d1].
  destruct (write studentsFile _ _) as [ok2 d2].
  destruct Hwrites as (Hset2 & Hfail2 & Hboth).
  destruct (ok1 && ok2); cbn [default]; (eexists; split; [reflexivity|]).
  - destruct (Hboth eq_refl) as [Hv2 Hs2]. unfold vote_outcome. cbn.
    repeat split; try reflexivity; try discriminate; try assumption.
    + now apply relock.
    + intros Hr. now contradiction Hr.
    + intros Hr. now contradiction Hr.
    + intros _. exists v, entries, session. repeat split; assumption.
  - now apply (outcome_commit_failed b w d2).
Qed.

(** What one [/api/vote] request served alone does to the world. *)
Lemma vote_effect :
  forall (w : World) (clientIP : string) (b : VoteBody.t),
    exists r : Res.t,
      (exec (api_vote clientIP b) w).2 = Some r
      /\ (admitted clientIP w = false -> r = RateLimited)
      /\ vote_outcome b w (exec (api_vote clientIP b) w).1 r.
Proof.
  intros w clientIP b. unfold api_vote. rewrite exec_limited.
  destruct (admitted clientIP w).
  - destruct (vote_outcome_alone b (counted clientIP w)) as (r & Hr & Hout).
    exists r. split; [exact Hr|]. split; [discriminate|]. exact Hout.
  - exists RateLimited. split; [reflexivity|]. split; [reflexivity|].
    unfold vote_outcome. cbn.
    repeat split; try reflexivity; try discriminate;
      intros [Hr|Hr]; discriminate Hr.
Qed.

(** X6. [/api/vote] served alone always answers, and what it changes is
    read off its answer. With a token that is a string or absent: it never
    changes the settings, the timers, the clock or which writes fail, and
    it leaves the voting locks as it found them; it removes its session
    exactly when it answers "recorded" or "already recorded"; any answer
    other than "recorded" and "error recording vote" leaves the data files
    untouched; and "recorded" means that the key was not on the roll, that
    a selection was made, and that tally and roll now hold exactly the
    credited tally and the roll with the voter's entry appended. With a
    token of another JSON type it answers "error recording vote" and
    changes nothing but the request count. *)
Theorem vote_frame :
  forall (w : World) (clientIP : string),
    (forall b : VoteBody.t,
       exists r : Res.t,
         (exec (api_vote clientIP b) w).2 = Some r
         /\ (admitted clientIP w = false -> r = RateLimited)
         /\ vote_outcome b w (exec (api_vote clientIP b) w).1 r)
    /\ exec (api_vote clientIP TokenNotString) w
       = (counted clientIP w,
          Some (if admitted clientIP w then CommitFailed else RateLimited)).
Proof.
  intros w clientIP. split; [intros b; apply vote_effect|].
  unfold api_vote. rewrite exec_limited.
  destruct (admitted clientIP w); [apply vote_token_not_string|reflexivity].
Qed.

(** ** Requests served one at a time *)

Section Sequential.

Context `{JsDate}.

Lemma has_empty {V : Type} (k : string) : has (∅ : gmap string V) k = false.
Proof. unfold has. now rewrite lookup_empty. Qed.

Lemma vote_not_in_progress (b : VoteBody.t) (w : World) :
  votingSessions (mem w) = ∅ ->
  (exec (vote b) w).2 <> Some SubmissionInProgress.
Proof.
  intros Hidle. rewrite vote_exec. cbn zeta.
  destruct (settings (disk w)) as [[|]|]; try discriminate.
  destruct (verifiedSessions (mem w) !! VoteBody.sessionToken b) as [session|];
    try discriminate.
  destruct (negb _); try discriminate.
  destruct (students (disk w)) as [entries|]; try discriminate.
  destruct (hasVoted entries _); try discriminate.
  rewrite Hidle, has_empty.
  destruct (noSelection b); try discriminate.
  destruct (commit_attempt_result b (Session.voterKey session)
              (Session.voterInfo session) entries w) as [Hr|Hr];
    destruct (exec (commit_attempt _ _ _ _) w) as [w' r]; cbn in *; subst r; discriminate.
Qed.

(** The validation never words a failure as the submission route words a
    lock. *)
Lemma validation_message_not_in_progress (now : Z) (voterInfo : Body) :
  json 400 false (Validation.message (validateVoterInfo now voterInfo))
  <> SubmissionInProgress.
Proof.
  unfold validateVoterInfo.
  repeat match goal with
         | |- context [if ?c then _ else _] => destruct c
         | |- context [match ?c with Some _ => _ | None => _ end] => destruct c
         end; discriminate.
Qed.

Lemma happen_idle (e : Event) (w : World) :
  votingSessions (mem w) = ∅ ->
  votingSessions (mem (happen e w).1) = ∅
  /\ (happen e w).2 <> Some SessionInProgress
  /\ (happen e w).2 <> Some SubmissionInProgress.
Proof.
  intros Hidle.
  destruct e as [ip fresh info|ip [b|]|enabled| |dt|token| |f how]; unfold happen.
  - destruct (check_voter_effect w ip fresh info) as (r & Hr & _ & _ & Hlocks & _).
    split; [now rewrite Hlocks|]. clear r Hr Hlocks.
    unfold api_check_voter. rewrite exec_limited.
    destruct (admitted ip w); [|split; differ].
    rewrite check_voter_exec. cbn zeta.
    destruct (negb _).
    { split; [differ|]. intros E. cbn in E.
      apply (validation_message_not_in_progress (clock w) info). congruence. }
    destruct (students _) as [entries|]; [|split; differ].
    destruct (hasVoted entries _); [split; differ|].
    change (votingSessions (mem (counted ip w))) with (votingSessions (mem w)).
    rewrite Hidle, has_empty. split; differ.
  - destruct (vote_effect w ip b) as (r & Hr & _ & Hout).
    destruct Hout as (_ & _ & _ & Hlocks & _).
    split; [now rewrite Hlocks|]. clear r Hr Hlocks.
    unfold api_vote. rewrite exec_limited.
    destruct (admitted ip w); [|split; differ].
    split; [|now apply vote_not_in_progress].
    rewrite vote_exec. cbn zeta.
    destruct (settings _) as [[|]|]; try differ.
    destruct (verifiedSessions _ !! _) as [session|]; try differ.
    destruct (negb _); try differ.
    destruct (students _) as [entries|]; try differ.
    destruct (hasVoted entries _); try differ.
    destruct (has _ _); try differ.
    destruct (noSelection b); try differ.
    destruct (commit_attempt_result b (Session.voterKey session)
                (Session.voterInfo session) entries (counted ip w)) as [Hc|Hc];
      destruct (exec (commit_attempt _ _ _ _) _) as [w' c]; cbn in *; subst c; differ.
  - unfold api_vote. rewrite exec_limited.
    destruct (admitted ip w); [rewrite vote_token_not_string|];
      cbn; repeat split; try assumption; differ.
  - unfold post_settings. cbn.
    destruct (write settingsFile enabled (disk w)) as [[] d1]; cbn;
      [destruct enabled|]; cbn; repeat split; try assumption; differ.
  - unfold admin_reset. rewrite exec_try_catch. cbn.
    destruct (write votesFile emptyVotes (disk w)) as [ok1 d1]. cbn.
    destruct (write studentsFile [] d1) as [ok2 d2]. cbn.
    destruct (ok1 && ok2); cbn; repeat split; differ.
  - cbn. repeat split; try assumption; differ.
  - destruct (existsb _ _); cbn; repeat split; try assumption; differ.
  - cbn. rewrite Hidle. repeat split; try differ; try apply map_filter_empty.
  - cbn. repeat split; try assumption; differ.
Qed.

(** X7. Served one at a time, requests never leave a voting lock behind:
    from a state without locks, whatever is asked of the server and
    whatever the files do, there is no lock after any event, and no
    verification is ever answered "session already in progress" nor any
    submission "submission already in progress". *)
Theorem no_lock_between_requests :
  forall (es : list Event) (w : World),
    votingSessions (mem w) = ∅ ->
    votingSessions (mem (happen_all es w).1) = ∅
    /\ Forall (fun r => r <> Some SessionInProgress /\ r <> Some SubmissionInProgress)
         (happen_all es w).2.
Proof.
  induction es as [|e es IH]; intros w Hidle; [split; [assumption|constructor]|].
  cbn [happen_all]. destruct (happen_idle e w Hidle) as (Hidle1 & Hr1 & Hr2).
  destruct (happen e w) as [w1 r]. cbn in Hidle1, Hr1, Hr2.
  specialize (IH w1 Hidle1). destruct (happen_all es w1) as [w2 rs]. cbn in *.
  destruct IH as [Hidle2 Hrs]. split; [assumption|]. constructor; [split|]; assumption.
Qed.

End Sequential.

Lemma no_lock_between_requests_witness :
  votingSessions (mem (@happen_all isoDate Scenario.twice Scenario.world0).1) = ∅
  /\ Forall (fun r => r <> Some SessionInProgress /\ r <> Some SubmissionInProgress)
       (@happen_all isoDate Scenario.twice Scenario.world0).2.
Proof.
  exact (@no_lock_between_requests isoDate Scenario.twice Scenario.world0 eq_refl).
Defined.

(** ** Tally and roll *)

Lemma tallyOf_recordVotes (p : Position) (b : VoteBody.t) (v : Votes) :
  tallyOf p (recordVotes b v) = credit (selection p b) (tallyOf p v).
Proof. destruct p; reflexivity. Qed.

(** A credit touches the selected name only. *)
Lemma credit_other (name : string) (tally : gmap string TVal) (candidate : string) :
  name <> candidate -> credit name tally !! candidate = tally !! candidate.
Proof.
  intros Hne. unfold credit. destruct (Js.truthy name); [|reflexivity].
  destruct (tally !! name); [now rewrite lookup_insert_ne|].
  destruct (inherited name) as [[|source]|];
    [reflexivity|now rewrite lookup_insert_ne..].
Qed.

(** The credit of a name that is the tally's own or not one of
    [Object.prototype]: a count is there afterwards, one more when a count
    was there or nothing. *)
Lemma credit_selected (name : string) (tally : gmap string TVal) (n : Z) :
  Js.truthy name = true ->
  tally !! name <> None \/ inherited name = None ->
  countFor tally name = Some n ->
  credit name tally !! name = Some (Num (n + 1)).
Proof.
  intros Hname Hplain. unfold countFor, credit. rewrite Hname.
  destruct (tally !! name) as [[m|text]|].
  - intros [= <-]. apply lookup_insert_eq.
  - discriminate.
  - destruct Hplain as [Hown|Hplain]; [contradiction|]. rewrite Hplain.
    intros [= <-]. apply lookup_insert_eq.
Qed.


Lemma rollEntry_field (p : Position) (key : string) (info : Body) (now : Z)
    (b : VoteBody.t) :
  rollEntry key info now b !! fieldOf p = Some (orNull (selection p b)).
Proof.
  unfold rollEntry.
  destruct p; cbn [fieldOf selection];
    repeat (rewrite lookup_insert_ne by discriminate); apply lookup_insert_eq.
Qed.



Section Consistency.

Context `{JsDate}.




End Consistency.


(** The ballot for [__proto__], [constructor] and Alice: three answers,
    one count. *)
Example credit_inherited_names :
  let '(w, answers) := @happen_all isoDate Scenario.odd Scenario.world0 in
  answers = [Some (Verified Scenario.T1); Some VoteRecorded; Some CommitFailed]
  /\ (votes (disk w) ≫= fun v => headBoy v !! "__proto__") = None
  /\ (votes (disk w) ≫= fun v => headGirl v !! "constructor")
     = Some (Str "function Object() { [native code] }1")
  /\ (votes (disk w) ≫= fun v => sportsCaptain v !! "Alice") = Some (Num 1)
  /\ (votes (disk w) ≫= fun v => Some (totalVotes (headBoy v) + totalVotes (headGirl v)))
     = Some 0.
Proof. vm_compute. repeat split. Qed.

(** ** The administrator's routes *)

(** X9. The reset always answers and always clears the three maps, also
    when a write fails, and leaves settings and pending timers alone. Each
    of the two files is emptied whenever it can be written, whatever
    happens to the other; the answer is success exactly when both could.
    After a reset that could write the roll no key counts as voted. *)
Theorem admin_reset_clears :
  forall w : World,
    exists r : Res.t,
      let w' := (exec admin_reset w).1 in
      (exec admin_reset w).2 = Some r
      /\ votingSessions (mem w') = ∅
      /\ verifiedSessions (mem w') = ∅
      /\ rateLimitMap (mem w') = ∅
      /\ timers (mem w') = timers (mem w)
      /\ settings (disk w') = settings (disk w)
      /\ (failing (disk w) votesFile = None -> votes (disk w') = Some emptyVotes)
      /\ (failing (disk w) studentsFile = None ->
          students (disk w') = Some [] /\ forall key, voted w' key = false)
      /\ (Res.success r = true
          <-> failing (disk w) votesFile = None /\ failing (disk w) studentsFile = None)
      /\ Res.status r = (if Res.success r then 200 else 500).
Proof.
  intros w. unfold admin_reset. rewrite exec_try_catch. cbn. unfold write, voted.
  destruct (failing (disk w) votesFile) as [[]|] eqn:Hv; cbn; rewrite ?Hv;
    destruct (failing (disk w) studentsFile) as [[]|] eqn:Hs; cbn;
    eexists; repeat split; try reflexivity; try discriminate;
    try (intros [E1 E2]; discriminate).
Qed.

Lemma exec_post_settings (enabled : bool) (w : World) :
  failing (disk w) settingsFile = None ->
  exec (post_settings enabled) w
  = (mkWorld (clock w)
       (mkDisk (Some enabled) (students (disk w)) (votes (disk w)) (failing (disk w)))
       (if enabled then mem w
        else mkMem ∅ ∅ (rateLimitMap (mem w)) (timers (mem w))),
     Some (json 200 true "")).
Proof.
  intros Hfail. unfold post_settings. cbn. unfold write.
  destruct w as [now d m]. cbn in *. rewrite Hfail. cbn.
  destruct enabled; reflexivity.
Qed.

(** X10. Switching the voting flag. When the settings file cannot be
    written the answer is an error and the maps, the tally and the roll
    stay as they were. Otherwise the flag is stored, tally and roll are
    untouched, switching on keeps every session, and switching off drops
    every session and lock; so a token verified before voting was switched
    off is refused as expired once voting is on again, as any submission
    whose token is a string or absent is refused as disabled in between. *)
Theorem post_settings_sessions :
  forall (w : World) (enabled : bool),
    let w' := (exec (post_settings enabled) w).1 in
    students (disk w') = students (disk w)
    /\ votes (disk w') = votes (disk w)
    /\ (failing (disk w) settingsFile <> None ->
        mem w' = mem w
        /\ (exec (post_settings enabled) w).2
           = Some (json 500 false "Failed to update settings"))
    /\ (failing (disk w) settingsFile = None ->
        (exec (post_settings enabled) w).2 = Some (json 200 true "")
        /\ settings (disk w') = Some enabled
        /\ rateLimitMap (mem w') = rateLimitMap (mem w)
        /\ (enabled = true -> mem w' = mem w)
        /\ (enabled = false ->
            votingSessions (mem w') = ∅ /\ verifiedSessions (mem w') = ∅
            /\ forall (clientIP : string) (b : VoteBody.t),
                 admitted clientIP w' = true ->
                 exec (api_vote clientIP b) w' = (counted clientIP w', Some VotingDisabled))
        /\ (enabled = false ->
            forall (clientIP : string) (b : VoteBody.t),
              let w2 := (exec (post_settings true) w').1 in
              admitted clientIP w2 = true ->
              exec (api_vote clientIP b) w2 = (counted clientIP w2, Some SessionExpired))).
Proof.
  intros w enabled w'. subst w'.
  split; [|split; [|split]].
  - unfold post_settings. cbn. unfold write.
    destruct (failing (disk w) settingsFile) as [[]|]; cbn;
      try reflexivity; destruct enabled; reflexivity.
  - unfold post_settings. cbn. unfold write.
    destruct (failing (disk w) settingsFile) as [[]|]; cbn;
      try reflexivity; destruct enabled; reflexivity.
  - intros Hfail. unfold post_settings. cbn. unfold write.
    destruct (failing (disk w) settingsFile) as [[]|]; cbn;
      [destruct w as [now d []]; split; reflexivity..|contradiction].
  - intros Hfail. rewrite (exec_post_settings enabled w Hfail).
    cbn [fst snd disk mem settings students votes rateLimitMap].
    split; [reflexivity|]. split; [reflexivity|].
    split; [destruct enabled; reflexivity|].
    split; [intros ->; reflexivity|]. split.
    + intros ->. split; [reflexivity|]. split; [reflexivity|].
      intros clientIP b Hadm. unfold api_vote. rewrite exec_limited, Hadm.
      now apply vote_disabled.
    + intros -> clientIP b. rewrite exec_post_settings by exact Hfail.
      cbn [fst]. intros Hadm.
      unfold api_vote. rewrite exec_limited, Hadm.
      apply vote_unknown_token; [reflexivity|].
      cbn. rewrite has_empty. apply andb_false_r.
Qed.

(** ** The periodic cleanup *)

Lemma filter_lookup_iff {V : Type} (P : string * V -> Prop) `{!forall x, Decision (P x)}
    (m : gmap string V) (k : string) (x : V) :
  filter P m !! k = Some x <-> m !! k = Some x /\ P (k, x).
Proof. apply map_lookup_filter_Some. Qed.

Lemma filter_twice {V : Type} (P : string * V -> Prop) `{!forall x, Decision (P x)}
    (m : gmap string V) :
  filter P (filter P m) = filter P m.
Proof.
  apply map_eq. intros k. apply option_eq. intros x.
  rewrite !map_lookup_filter_Some. tauto.
Qed.

(** X11. A cleanup at [now] keeps exactly the sessions and locks that are
    at most ten minutes old and the rate windows that have not elapsed,
    each as it was; it leaves the timers alone; running it twice is
    running it once; and it is invisible to the rate limiter: a request at
    [now] is admitted or rejected, and counted, the same with or without
    the cleanup before it. *)
Theorem cleanup_keeps_the_young :
  forall (now : Z) (m : Mem),
    (forall token session,
       verifiedSessions (cleanup now m) !! token = Some session
       <-> verifiedSessions m !! token = Some session
           /\ now - Session.timestamp session <= sessionTimeout)
    /\ (forall key taken,
          votingSessions (cleanup now m) !! key = Some taken
          <-> votingSessions m !! key = Some taken /\ now - taken <= sessionTimeout)
    /\ (forall clientIP window,
          rateLimitMap (cleanup now m) !! clientIP = Some window
          <-> rateLimitMap m !! clientIP = Some window
              /\ now <= RateEntry.resetTime window)
    /\ timers (cleanup now m) = timers m
    /\ cleanup now (cleanup now m) = cleanup now m
    /\ (forall (windowMs maxRequests : Z) (clientIP : string),
          (rateLimitWith windowMs maxRequests clientIP now (rateLimitMap (cleanup now m))).1
          = (rateLimitWith windowMs maxRequests clientIP now (rateLimitMap m)).1
          /\ (rateLimitWith windowMs maxRequests clientIP now
                (rateLimitMap (cleanup now m))).2 !! clientIP
             = (rateLimitWith windowMs maxRequests clientIP now (rateLimitMap m)).2
                 !! clientIP).
Proof.
  intros now m. split; [|split; [|split; [|split; [|split]]]].
  - intros token session. cbn. rewrite map_lookup_filter_Some. cbn.
    split; intros [Hs Hage]; (split; [assumption|lia]).
  - intros key taken. cbn. rewrite map_lookup_filter_Some. cbn.
    split; intros [Hs Hage]; (split; [assumption|lia]).
  - intros clientIP window. cbn. rewrite map_lookup_filter_Some. cbn.
    split; intros [Hs Hage]; (split; [assumption|lia]).
  - reflexivity.
  - unfold cleanup. cbn. now rewrite !filter_twice.
  - intros W M ip. unfold rateLimitWith. cbn.
    destruct (rateLimitMap m !! ip) as [e|] eqn:He.
    + destruct (Z.gtb_spec now (RateEntry.resetTime e)) as [Hold|Hyoung].
      * assert (filter (fun kv : string * RateEntry.t => ¬ now > RateEntry.resetTime kv.2)
                  (rateLimitMap m) !! ip = None) as ->.
        { apply map_lookup_filter_None. right. intros e' He'.
          rewrite He in He'. injection He' as <-. cbn. lia. }
        cbn. now rewrite !lookup_insert_eq.
      * assert (filter (fun kv : string * RateEntry.t => ¬ now > RateEntry.resetTime kv.2)
                  (rateLimitMap m) !! ip = Some e) as Hkept.
        { apply map_lookup_filter_Some. split; [assumption|]. cbn. lia. }
        rewrite Hkept. destruct (Z.gtb_spec now (RateEntry.resetTime e)); [lia|].
        destruct (RateEntry.count e >=? M); cbn; [now rewrite Hkept, He|].
        now rewrite !lookup_insert_eq.
    + assert (filter (fun kv : string * RateEntry.t => ¬ now > RateEntry.resetTime kv.2)
                (rateLimitMap m) !! ip = None) as ->.
      { apply map_lookup_filter_None. left. assumption. }
      cbn. now rewrite !lookup_insert_eq.
Qed.

(** ** The tally *)

Lemma totalVotes_insert (tally : gmap string TVal) (name : string) (x : TVal) :
  totalVotes (<[name := x]> tally)
  = totalVotes tally - default 0 (votesOf <$> tally !! name) + votesOf x.
Proof.
  unfold totalVotes.
  assert (forall (t : gmap string TVal) (k : string) (y : TVal),
            t !! k = None ->
            map_fold (fun (_ : string) (x : TVal) (acc : Z) => votesOf x + acc) 0
              (<[k := y]> t)
            = votesOf y
              + map_fold (fun (_ : string) (x : TVal) (acc : Z) => votesOf x + acc) 0 t)
    as Hfresh.
  { intros t k y Hk.
    apply (map_fold_insert_L (fun (_ : string) (x : TVal) (acc : Z) => votesOf x + acc)
             0 k y t); [|assumption]. intros. lia. }
  destruct (tally !! name) as [old|] eqn:Hold; cbn.
  - rewrite <- (insert_delete_eq tally name x).
    rewrite <- (insert_delete_id tally name old Hold) at 2.
    rewrite !Hfresh by apply lookup_delete_eq. lia.
  - rewrite Hfresh by assumption. lia.
Qed.

(** X12. Crediting a submission. A position without a selection keeps its
    tally as it was, and a submission without any selection changes no
    tally. A credit changes nothing but what the tally holds under the
    selected name. For a selected name that the tally holds, or that is no
    name of [Object.prototype], a count that was there (nothing counting
    for 0) is one more afterwards, and so are the votes of the position.
    For a selected name that the tally does not hold and that
    [Object.prototype] has, no vote is credited: the votes of the position
    stay as they were and no count stands under the name afterwards, the
    tally being as it was for [__proto__] and holding a string under the
    name of a built-in function. *)
Theorem recordVotes_counts :
  forall (b : VoteBody.t) (v : Votes) (p : Position),
    (Js.truthy (selection p b) = false -> tallyOf p (recordVotes b v) = tallyOf p v)
    /\ (noSelection b = true -> recordVotes b v = v)
    /\ (forall candidate,
          candidate <> selection p b ->
          tallyOf p (recordVotes b v) !! candidate = tallyOf p v !! candidate)
    /\ (forall n,
          Js.truthy (selection p b) = true ->
          tallyOf p v !! selection p b <> None \/ inherited (selection p b) = None ->
          countFor (tallyOf p v) (selection p b) = Some n ->
          tallyOf p (recordVotes b v) !! selection p b = Some (Num (n + 1))
          /\ totalVotes (tallyOf p (recordVotes b v)) = totalVotes (tallyOf p v) + 1)
    /\ (Js.truthy (selection p b) = true ->
        tallyOf p v !! selection p b = None ->
        inherited (selection p b) <> None ->
        totalVotes (tallyOf p (recordVotes b v)) = totalVotes (tallyOf p v)
        /\ (selection p b = "__proto__" -> tallyOf p (recordVotes b v) = tallyOf p v)
        /\ (selection p b <> "__proto__" ->
            exists text,
              tallyOf p (recordVotes b v) = <[selection p b := Str text]> (tallyOf p v))).
Proof.
  intros b v p. rewrite tallyOf_recordVotes.
  split; [|split; [|split; [|split]]].
  - unfold credit. now intros ->.
  - unfold noSelection, recordVotes, credit. destruct v as [hb hg sc svc]. cbn.
    destruct (Js.truthy (VoteBody.headBoyVote b)); [discriminate|].
    destruct (Js.truthy (VoteBody.headGirlVote b)); [discriminate|].
    destruct (Js.truthy (VoteBody.sportsCaptainVote b)); [discriminate|].
    destruct (Js.truthy (VoteBody.sportsViceCaptainVote b)); [discriminate|].
    reflexivity.
  - intros candidate Hne. apply credit_other. congruence.
  - intros n Hname Hplain Hcount.
    split; [now apply credit_selected|].
    unfold credit, countFor in *. rewrite Hname.
    destruct (tallyOf p v !! selection p b) as [[m|text]|] eqn:Hown.
    + injection Hcount as <-. rewrite totalVotes_insert, Hown. cbn. lia.
    + discriminate.
    + destruct Hplain as [Hown'|Hplain]; [contradiction|]. rewrite Hplain.
      rewrite totalVotes_insert, Hown. cbn. lia.
  - intros Hname Hown Hinherited. unfold credit. rewrite Hname, Hown.
    unfold inherited in *.
    destruct (bool_decide (selection p b = "__proto__")) eqn:Hproto.
    + apply bool_decide_eq_true in Hproto.
      split; [reflexivity|]. split; [reflexivity|]. intros Hne. contradiction.
    + apply bool_decide_eq_false in Hproto.
      destruct (bool_decide (selection p b = "constructor"));
        [|destruct (bool_decide (selection p b ∈ builtins)); [|contradiction]].
      all: rewrite totalVotes_insert, Hown; cbn.
      all: split; [lia|]; split; [intros E; contradiction|]; intros _; eexists; reflexivity.
Qed.

(** ** The roll entry *)

Lemma prefix_split (n : nat) (s : string) :
  exists rest, s = Js.prefix n s +:+ rest
               /\ String.length (Js.prefix n s) = Nat.min n (String.length s).
Proof.
  revert s. induction n as [|n IH]; intros s.
  - exists s. split; reflexivity.
  - destruct s as [|c s]; [exists ""; split; reflexivity|].
    destruct (IH s) as (rest & Hs & Hlen). exists rest. split.
    + change (String c s = String c (Js.prefix n s +:+ rest)). now f_equal.
    + cbn. now rewrite Hlen.
Qed.

(** X13. The entry a recorded submission puts on the roll. The time of the
    vote, the four choices ([null] for a position without a selection) and
    the token are the server's, whatever the form held under these names;
    of the token only the first eight characters are stored; every other
    property of the form is carried over as it is; and the entry's
    [voterKey] is the form's own [voterKey] property when it has one, the
    computed key otherwise. *)
Theorem rollEntry_properties :
  forall (key : string) (info : Body) (now : Z) (b : VoteBody.t),
    let entry := rollEntry key info now b in
    entry !! "votedAt" = Some (JDate now)
    /\ (forall p, entry !! fieldOf p = Some (orNull (selection p b)))
    /\ (exists stored rest,
          entry !! "sessionToken" = Some (JStr stored)
          /\ VoteBody.sessionToken b = stored +:+ rest
          /\ String.length stored = Nat.min 8 (String.length (VoteBody.sessionToken b)))
    /\ entry !! "voterKey" = Some (JStr (default key (info !! "voterKey")))
    /\ (forall k, k ∉ serverFields -> k <> "voterKey" -> entry !! k = JStr <$> info !! k).
Proof.
  intros key info now b entry. subst entry. split; [|split; [|split; [|split]]].
  - unfold rollEntry. repeat (rewrite lookup_insert_ne by discriminate).
    apply lookup_insert_eq.
  - intros p. apply rollEntry_field.
  - destruct (prefix_split 8 (VoteBody.sessionToken b)) as (rest & Hs & Hlen).
    exists (Js.prefix 8 (VoteBody.sessionToken b)), rest.
    split; [apply lookup_insert_eq|]. split; assumption.
  - unfold rollEntry. repeat (rewrite lookup_insert_ne by discriminate).
    rewrite lookup_union, lookup_fmap, lookup_singleton_eq.
    destruct (info !! "voterKey"); reflexivity.
  - intros k Hserver Hkey. unfold serverFields in Hserver.
    rewrite !not_elem_of_cons in Hserver.
    destruct Hserver as (H1 & H2 & H3 & H4 & H5 & H6 & _).
    unfold rollEntry. rewrite !lookup_insert_ne by congruence.
    rewrite lookup_union, lookup_fmap, lookup_singleton_ne by congruence.
    destruct (info !! k); reflexivity.
Qed.

(** ** Validation of the verification form *)

Section Validation.

Context `{JsDate}.

Import Js.

Lemma truthy_len (s : string) : truthy s = true <-> 1 <= len s.
Proof.
  unfold len. destruct s; cbn [truthy String.length]; split; intros Hs;
    try reflexivity; try discriminate; lia.
Qed.

Lemma len_map_chars (f : ascii -> ascii) (s : string) : len (map_chars f s) = len s.
Proof. unfold len. f_equal. induction s as [|c s IH]; cbn; [reflexivity|now rewrite IH]. Qed.

Lemma yearMs_value : yearMs = 31557600000.
Proof. reflexivity. Qed.

(** X14. Among the forms whose four fields are strings, with a name, a
    class and a division of ASCII characters, the validation accepts
    exactly those with a non-empty date string and, once trimmed, a name of
    2 to 100 characters made of letters, white space, hyphens, apostrophes
    and dots, a class of 1 to 10 characters and a division of 1 to 5, whose
    date of birth parses to an age between 3 and 30 years of 365.25 days at
    the time of the request, both bounds included. *)
Theorem validateVoterInfo_accepts :
  forall (now : Z) (voterInfo : Body),
    ascii_only (prop voterInfo "name") = true ->
    ascii_only (prop voterInfo "class") = true ->
    ascii_only (prop voterInfo "division") = true ->
    Validation.valid (validateVoterInfo now voterInfo) = true
    <-> (truthy (prop voterInfo "dateOfBirth") = true
         /\ 2 <= len (trim (prop voterInfo "name")) <= 100
         /\ all_chars name_char (trim (prop voterInfo "name")) = true
         /\ 1 <= len (trim (prop voterInfo "class")) <= 10
         /\ 1 <= len (trim (prop voterInfo "division")) <= 5
         /\ exists dob,
              Date_parse (prop voterInfo "dateOfBirth") = Some dob
              /\ 3 * yearMs <= now - dob <= 30 * yearMs).
Proof.
  intros now voterInfo _ _ _. unfold validateVoterInfo.
  set (name := prop voterInfo "name"). set (class := prop voterInfo "class").
  set (division := prop voterInfo "division").
  set (dateOfBirth := prop voterInfo "dateOfBirth").
  unfold toUpperCase, name_regex. rewrite !len_map_chars.
  assert (forall s, truthy (map_chars upper_char s) = truthy s) as Hup
    by (intros [|c s]; reflexivity).
  rewrite !Hup.
  assert (forall s, truthy (trim s) = true -> truthy s = true) as Htrim
    by (intros [|c s]; [discriminate|reflexivity]).
  rewrite yearMs_value. split.
  - destruct (negb (truthy name) || negb (truthy class) || negb (truthy division)
              || negb (truthy dateOfBirth)) eqn:Hfields; [differ|].
    destruct (negb (truthy (trim name)) || (len (trim name) <? 2)
              || (len (trim name) >? 100)) eqn:Hname; [differ|].
    destruct (negb (truthy (trim name) && all_chars name_char (trim name))) eqn:Hchars;
      [differ|].
    destruct (negb (truthy (trim class)) || (len (trim class) >? 10)) eqn:Hclass;
      [differ|].
    destruct (negb (truthy (trim division)) || (len (trim division) >? 5)) eqn:Hdivision;
      [differ|].
    destruct (Date_parse dateOfBirth) as [dob|]; [|differ].
    destruct ((now - dob <? 3 * 31557600000) || (now - dob >? 30 * 31557600000)) eqn:Hage;
      [differ|].
    intros _.
    repeat match goal with
           | E : _ || _ = false |- _ => apply orb_false_elim in E as [? ?]
           | E : negb _ = false |- _ => apply negb_false_iff in E
           | E : _ && _ = true |- _ => apply andb_prop in E as [? ?]
           | E : truthy (trim _) = true |- _ => apply truthy_len in E
           | E : (_ <? _) = false |- _ => apply Z.ltb_ge in E
           | E : (_ >? _) = false |- _ => rewrite Z.gtb_ltb in E; apply Z.ltb_ge in E
           end.
    repeat split; try assumption; try lia. exists dob. split; [reflexivity|lia].
  - intros (Hdate & Hname & Hchars & Hclass & Hdivision & dob & Hdob & Hage).
    assert (truthy (trim name) = true) as Htn by (apply truthy_len; lia).
    assert (truthy (trim class) = true) as Htc by (apply truthy_len; lia).
    assert (truthy (trim division) = true) as Htd by (apply truthy_len; lia).
    rewrite (Htrim _ Htn), (Htrim _ Htc), (Htrim _ Htd), Hdate, Htn, Htc, Htd, Hchars, Hdob.
    cbn [negb orb andb].
    destruct (Z.ltb_spec (len (trim name)) 2); [lia|].
    destruct (Z.gtb_spec (len (trim name)) 100); [lia|].
    destruct (Z.gtb_spec (len (trim class)) 10); [lia|].
    destruct (Z.gtb_spec (len (trim division)) 5); [lia|].
    destruct (Z.ltb_spec (now - dob) (3 * 31557600000)); [lia|].
    destruct (Z.gtb_spec (now - dob) (30 * 31557600000)); [lia|].
    destruct (Z.gtb_spec dob now); [lia|]. reflexivity.
Qed.

(** X15. A date of birth after the time of the request is always refused,
    and never with "Date of birth cannot be in the future": such a date
    makes the age negative, and the age test, which comes first, answers
    "Age must be between 3-30 years for school students". No form at all
    gets the answer about the future. *)
Theorem validateVoterInfo_future_unreachable :
  forall (now : Z) (voterInfo : Body),
    Validation.message (validateVoterInfo now voterInfo)
    <> "Date of birth cannot be in the future"
    /\ (forall dob,
          Date_parse (prop voterInfo "dateOfBirth") = Some dob ->
          dob > now ->
          Validation.valid (validateVoterInfo now voterInfo) = false).
Proof.
  intros now voterInfo. unfold validateVoterInfo. rewrite yearMs_value. split.
  - repeat match goal with
           | |- context [if ?c then _ else _] =>
               lazymatch c with
               | (_ <? _) || (_ >? _) => fail
               | _ >? _ => fail
               | _ => destruct c
               end
           | |- context [match ?c with Some _ => _ | None => _ end] => destruct c
           end; try discriminate.
    destruct (Z.ltb_spec (now - z) (3 * 31557600000)); cbn [orb]; [discriminate|].
    destruct (now - z >? 30 * 31557600000); [discriminate|].
    destruct (Z.gtb_spec z now); [lia|discriminate].
  - intros dob Hdob Hfuture. rewrite Hdob.
    destruct (Z.ltb_spec (now - dob) (3 * 31557600000)); [|lia]. cbn [orb].
    repeat match goal with
           | |- context [if ?c then _ else _] => destruct c
           end; reflexivity.
Qed.

End Validation.

Lemma validateVoterInfo_accepts_witness :
  Validation.valid (validateVoterInfo (H := isoDate) 1700000000000 Scenario.jane) = true
  <-> (Js.truthy (prop Scenario.jane "dateOfBirth") = true
       /\ 2 <= Js.len (Js.trim (prop Scenario.jane "name")) <= 100
       /\ Js.all_chars name_char (Js.trim (prop Scenario.jane "name")) = true
       /\ 1 <= Js.len (Js.trim (prop Scenario.jane "class")) <= 10
       /\ 1 <= Js.len (Js.trim (prop Scenario.jane "division")) <= 5
       /\ exists dob,
            Date_parse (JsDate := isoDate) (prop Scenario.jane "dateOfBirth") = Some dob
            /\ 3 * yearMs <= 1700000000000 - dob <= 30 * yearMs).
Proof.
  apply (validateVoterInfo_accepts (H := isoDate) 1700000000000 Scenario.jane);
    vm_compute; reflexivity.
Defined.

(** ** Administrator authentication *)

Lemma startsWith_app (p s : string) : startsWith p (p +:+ s) = true.
Proof.
  induction p as [|a p IH]; [reflexivity|].
  change (bool_decide (a = a) && startsWith p (p +:+ s) = true).
  rewrite bool_decide_eq_true_2 by reflexivity. exact IH.
Qed.

Lemma dropChars_app (p s : string) : dropChars (String.length p) (p +:+ s) = s.
Proof. induction p as [|a p IH]; [now destruct s|]. exact IH. Qed.

Lemma removeFirst_unfold (pat s : string) :
  removeFirst pat s =
  if startsWith pat s then dropChars (String.length pat) s
  else match s with
       | EmptyString => EmptyString
       | String c r => String c (removeFirst pat r)
       end.
Proof. now destruct s. Qed.

Lemma removeFirst_app (p s : string) : removeFirst p (p +:+ s) = s.
Proof. rewrite removeFirst_unfold, startsWith_app. apply dropChars_app. Qed.

Lemma requireAuth_bearer (s : string) :
  requireAuth (Some ("Bearer " +:+ "admin_" +:+ s)) = true.
Proof. unfold requireAuth. rewrite removeFirst_app. reflexivity. Qed.

Lemma truthy_nonempty (s : string) : Js.truthy s = true <-> s <> EmptyString.
Proof. destruct s; cbn; split; (congruence || discriminate || easy). Qed.

(** X16. POST /api/admin/login answers with status 200 exactly when the
    username and the password are both non-empty, the admins file could be
    read, and it lists this username with this password. *)
Theorem admin_login_succeeds_iff (adminData : option (list (string * string)))
    (now : Z) (username password : string) :
  Login.status (admin_login adminData now username password) = 200
  <-> (username <> EmptyString /\ password <> EmptyString
       /\ exists admins, adminData = Some admins /\ (username, password) ∈ admins).
Proof.
  unfold admin_login. split.
  - destruct (Js.truthy username) eqn:Eu; [|cbn; discriminate].
    destruct (Js.truthy password) eqn:Ep; [|cbn; discriminate].
    cbn [negb orb]. destruct adminData as [admins|]; [|cbn; discriminate].
    destruct (List.find _ admins) as [[u p]|] eqn:F; [|cbn; discriminate].
    intros _. apply find_some in F as [I E].
    apply andb_true_iff in E as [E1 E2].
    apply bool_decide_eq_true in E1, E2. cbn in E1, E2. subst u p.
    repeat split; try (now apply truthy_nonempty).
    exists admins. split; [reflexivity|]. now apply list_elem_of_In.
  - intros (Hu & Hp & admins & -> & I).
    apply truthy_nonempty in Hu, Hp. rewrite Hu, Hp. cbn [negb orb].
    destruct (List.find _ admins) as [a|] eqn:F; [reflexivity|].
    apply list_elem_of_In in I.
    pose proof (find_none _ _ F _ I) as E. cbn in E.
    rewrite !bool_decide_eq_true_2 in E by reflexivity. discriminate E.
Qed.

Lemma admin_login_token (adminData : option (list (string * string)))
    (now : Z) (username password token : string) :
  Login.token (admin_login adminData now username password) = Some token ->
  token = "admin_" +:+ username +:+ "_" +:+ pretty now
  /\ Login.status (admin_login adminData now username password) = 200.
Proof.
  unfold admin_login.
  destruct (negb (Js.truthy username) || negb (Js.truthy password));
    [cbn; discriminate|].
  destruct adminData as [admins|]; [|cbn; discriminate].
  destruct (List.find _ admins); [|cbn; discriminate].
  cbn [Login.token Login.status]. intros [= <-]. split; reflexivity.
Qed.

(** X17. A token issued by POST /api/admin/login is the text "admin_",
    the username, "_" and the time of the login in decimal, and a request
    that carries it in the header "Bearer <token>" passes [requireAuth]. *)
Theorem admin_login_token_accepted (adminData : option (list (string * string)))
    (now : Z) (username password token : string) :
  Login.token (admin_login adminData now username password) = Some token ->
  token = "admin_" +:+ username +:+ "_" +:+ pretty now
  /\ Login.status (admin_login adminData now username password) = 200
  /\ requireAuth (Some ("Bearer " +:+ token)) = true.
Proof.
  intros H. apply admin_login_token in H as [-> E].
  split; [reflexivity|]. split; [exact E|]. apply requireAuth_bearer.
Qed.

Lemma admin_login_token_accepted_witness :
  Login.token (admin_login (Some [("admin", "secret")]) 1700000000000 "admin" "secret")
    = Some "admin_admin_1700000000000"
  /\ ("admin_admin_1700000000000" = "admin_" +:+ "admin" +:+ "_" +:+ pretty 1700000000000
      /\ Login.status
           (admin_login (Some [("admin", "secret")]) 1700000000000 "admin" "secret") = 200
      /\ requireAuth (Some ("Bearer " +:+ "admin_admin_1700000000000")) = true).
Proof.
  split; [vm_compute; reflexivity|].
  apply (admin_login_token_accepted (Some [("admin", "secret")]) 1700000000000
           "admin" "secret" "admin_admin_1700000000000").
  vm_compute; reflexivity.
Defined.

(** X18. [requireAuth] looks at the shape of the header only: no header is
    refused, and every header "Bearer admin_..." passes, whatever follows
    the prefix. The bare token "admin_" passes although no login issues
    it. *)
Theorem requireAuth_checks_prefix_only :
  requireAuth None = false
  /\ (forall rest, requireAuth (Some ("Bearer admin_" +:+ rest)) = true)
  /\ (forall adminData now username password,
        Login.token (admin_login adminData now username password) <> Some "admin_").
Proof.
  split; [reflexivity|]. split; [intros rest; apply (requireAuth_bearer rest)|].
  intros adminData now username password H.
  apply admin_login_token in H as (E & _).
  destruct username; cbn in E; discriminate E.
Qed.

(** ** POST /api/upload-candidates *)

Section UploadFacts.

Context {Id : Type} (newId : nat -> Id).

Lemma processRow_cases (index : nat) (row : Row.t) (c : Candidates Id)
    (e : list string) :
  (exists p, rowPosition row = Some p
             /\ processRow Id newId index row (c, e)
                = (push Id p (mkCandidate Id (newId index) (Js.trim (Row.name row))
                                   (positionKey p) (cleanGender row)) c, e))
  \/ (rowPosition row = None
      /\ exists m, processRow Id newId index row (c, e) = (c, (e ++ [m])%list)).
Proof.
  unfold processRow, rowPosition.
  destruct (Js.truthy (Row.name row)); cbn [negb orb andb];
    [|right; split; [reflexivity|]; eexists; reflexivity].
  destruct (Js.truthy (Row.position row)); cbn [negb orb andb];
    [|right; split; [reflexivity|]; eexists; reflexivity].
  destruct (classify (cleanPosition row)) as [p|].
  - left. exists p. split; reflexivity.
  - right. split; [reflexivity|]. eexists; reflexivity.
Qed.

Lemma listOf_push (q p : Position) (x : Candidate Id) (c : Candidates Id) :
  listOf Id q (push Id p x c)
  = (listOf Id q c ++ if bool_decide (p = q) then [x] else [])%list.
Proof. destruct p, q; cbn; rewrite ?app_nil_r; reflexivity. Qed.

Lemma processRows_filed (rows : list Row.t) :
  forall index c e,
    (forall p, listOf Id p (processRows Id newId index rows (c, e)).1
               = (listOf Id p c ++ filed Id newId p index rows)%list)
    /\ length (processRows Id newId index rows (c, e)).2
       = (length e + length (filter (fun row => rowPosition row = None) rows))%nat
    /\ ((processRows Id newId index rows (c, e)).2 = e
        \/ (processRows Id newId index rows (c, e)).2 <> []).
Proof.
  induction rows as [|row rest IH]; intros index c e.
  - cbn. split; [intros p; now rewrite app_nil_r|]. split; [lia|now left].
  - cbn [processRows filed].
    destruct (processRow_cases index row c e) as [(p & Hp & ->)|(Hn & m & ->)].
    + destruct (IH (S index) (push Id p (mkCandidate Id (newId index) (Js.trim (Row.name row))
                                   (positionKey p) (cleanGender row)) c) e)
        as (IH1 & IH2 & IH3).
      split; [|split].
      * intros q. rewrite IH1, listOf_push, Hp, <- app_assoc. f_equal. f_equal.
        destruct (decide (p = q)) as [->|N].
        -- now rewrite !bool_decide_eq_true_2.
        -- rewrite !bool_decide_eq_false_2; [reflexivity|congruence|exact N].
      * rewrite IH2, filter_cons_False; [reflexivity|]. rewrite Hp. discriminate.
      * exact IH3.
    + destruct (IH (S index) c (e ++ [m])%list) as (IH1 & IH2 & IH3).
      split; [|split].
      * intros q. rewrite IH1, Hn.
        rewrite bool_decide_eq_false_2 by discriminate. reflexivity.
      * rewrite IH2, filter_cons_True by exact Hn.
        rewrite length_app. cbn. lia.
      * right. destruct IH3 as [->|N]; [|exact N]. now destruct e.
Qed.

Lemma totalCandidates_filed (c : Candidates Id) :
  totalCandidates Id c
  = (length (listOf Id HeadBoy c) + length (listOf Id HeadGirl c)
     + length (listOf Id SportsCaptain c) + length (listOf Id SportsViceCaptain c))%nat.
Proof. reflexivity. Qed.

Lemma filed_count (rows : list Row.t) :
  forall index,
    (length (filed Id newId HeadBoy index rows)
     + length (filed Id newId HeadGirl index rows)
     + length (filed Id newId SportsCaptain index rows)
     + length (filed Id newId SportsViceCaptain index rows)
     + length (filter (fun row => rowPosition row = None) rows))%nat
    = length rows.
Proof.
  induction rows as [|row rest IH]; intros index; [reflexivity|].
  specialize (IH (S index)). cbn [filed]. rewrite !length_app.
  destruct (rowPosition row) as [[]|] eqn:E.
  all: try (rewrite filter_cons_False by (rewrite E; discriminate)).
  all: try (rewrite filter_cons_True by exact E).
  all: repeat (first [rewrite bool_decide_eq_true_2 by reflexivity
                     |rewrite bool_decide_eq_false_2 by discriminate]).
  all: cbn [length Nat.add]; lia.
Qed.

Lemma filed_position (p : Position) (rows : list Row.t) :
  forall index,
    Forall (fun x => c_position Id x = positionKey p) (filed Id newId p index rows).
Proof.
  induction rows as [|row rest IH]; intros index; [constructor|].
  cbn [filed]. apply Forall_app. split; [|apply IH].
  destruct (bool_decide _); [constructor; [reflexivity|constructor]|constructor].
Qed.

Lemma processRows_sheet (rows : list Row.t) :
  (totalCandidates Id (processRows Id newId 0 rows (noCandidates Id, [])).1
   + length (processRows Id newId 0 rows (noCandidates Id, [])).2)%nat = length rows
  /\ (forall p, listOf Id p (processRows Id newId 0 rows (noCandidates Id, [])).1
                = filed Id newId p 0 rows).
Proof.
  destruct (processRows_filed rows 0%nat (noCandidates Id) []) as (H1 & H2 & _).
  assert (L : forall p, listOf Id p (processRows Id newId 0 rows (noCandidates Id, [])).1
                        = filed Id newId p 0 rows).
  { intros p. rewrite H1. now destruct p. }
  split; [|exact L].
  rewrite totalCandidates_filed, !L, H2. cbn [length Nat.add].
  apply filed_count.
Qed.

(** X19. Every row of the sheet is accounted for once: it is filed under
    exactly one position, or it is reported in exactly one error. The
    candidates of a position are the rows whose cleaned position cell names
    it, in the order of the sheet, each with the canonical position name. *)
Theorem processRows_accounts_for_every_row (rows : list Row.t) :
  let r := processRows Id newId 0 rows (noCandidates Id, []) in
  (totalCandidates Id r.1 + length r.2)%nat = length rows
  /\ (forall p, listOf Id p r.1 = filed Id newId p 0 rows)
  /\ (forall p, Forall (fun x => c_position Id x = positionKey p) (listOf Id p r.1)).
Proof.
  cbn zeta. destruct (processRows_sheet rows) as [T L].
  split; [exact T|]. split; [exact L|].
  intros p. rewrite L. apply filed_position.
Qed.

Lemma no_bad_rows (rows : list Row.t) :
  filter (fun row => rowPosition row = None) rows = []
  <-> Forall (fun row => rowPosition row <> None) rows.
Proof.
  induction rows as [|row rest IH]; [split; [constructor|reflexivity]|].
  destruct (rowPosition row) eqn:E.
  - rewrite filter_cons_False by (rewrite E; discriminate).
    rewrite IH. split; [constructor; [rewrite E; discriminate|assumption]|].
    now inversion 1.
  - rewrite filter_cons_True by exact E. split; [discriminate|].
    inversion 1; congruence.
Qed.

(** X20. The upload is all or nothing: the route goes on to write the
    candidates file exactly when the sheet has at least one row and every
    row has a name and a position cell that names a position; what it
    writes is then the rows grouped by position. One bad row refuses the
    whole sheet. *)
Theorem upload_all_or_nothing (rows : list Row.t) (c : Candidates Id) :
  uploadRows Id newId rows = Accepted Id c
  <-> (rows <> []
       /\ Forall (fun row => rowPosition row <> None) rows
       /\ forall p, listOf Id p c = filed Id newId p 0 rows).
Proof.
  unfold uploadRows.
  destruct (processRows_sheet rows) as (T & L).
  destruct (processRows_filed rows 0%nat (noCandidates Id) []) as (_ & H2 & _).
  destruct (processRows Id newId 0 rows (noCandidates Id, [])) as [c' e] eqn:P.
  cbn [fst snd] in *.
  assert (B : length e = 0%nat <-> Forall (fun row => rowPosition row <> None) rows).
  { rewrite H2. cbn [length Nat.add]. rewrite length_zero_iff_nil.
    apply no_bad_rows. }
  split.
  - destruct (Nat.eqb (length e) 0) eqn:E; cbn [negb]; [|discriminate].
    apply Nat.eqb_eq in E.
    destruct (Nat.eqb (totalCandidates Id c') 0) eqn:Z0; [discriminate|].
    apply Nat.eqb_neq in Z0. intros [= <-].
    split; [|split].
    + intros ->. cbn in T. lia.
    + now apply B.
    + exact L.
  - intros (N & F & Lc). apply B in F. rewrite F. cbn [Nat.eqb negb].
    assert (Z0 : totalCandidates Id c' <> 0%nat).
    { destruct rows; [congruence|]. cbn [length] in T. lia. }
    apply Nat.eqb_neq in Z0. rewrite Z0. f_equal.
    destruct c, c'. cbn in L, Lc.
    pose proof (L HeadBoy) as A1. pose proof (L HeadGirl) as A2.
    pose proof (L SportsCaptain) as A3. pose proof (L SportsViceCaptain) as A4.
    pose proof (Lc HeadBoy) as B1. pose proof (Lc HeadGirl) as B2.
    pose proof (Lc SportsCaptain) as B3. pose proof (Lc SportsViceCaptain) as B4.
    cbn in A1, A2, A3, A4, B1, B2, B3, B4. congruence.
Qed.

End UploadFacts.

(** ** The two validators *)

Ltac refused_alike :=
  repeat match goal with
         | |- context [if ?c then invalid ?m else _] =>
             destruct c; [try reflexivity; try (cbn; intros; discriminate)|]
         end.

(** X21. The variant server's validator relaxes the main one: a form the
    main server accepts, at any time, is accepted by the variant. *)
Theorem validateVoterInfo3_relaxes `{JsDate} (now : Z) (voterInfo : Body) :
  Validation.valid (validateVoterInfo now voterInfo) = true ->
  Validation.valid (validateVoterInfo3 voterInfo) = true.
Proof.
  unfold validateVoterInfo, validateVoterInfo3. cbn zeta.
  destruct (Js.truthy (prop voterInfo "name")); cbn [negb orb]; [|intros E; exact E].
  destruct (Js.truthy (prop voterInfo "class")); cbn [negb orb]; [|intros E; exact E].
  destruct (Js.truthy (prop voterInfo "division")); cbn [negb orb]; [|intros E; exact E].
  destruct (Js.truthy (prop voterInfo "dateOfBirth")); cbn [negb orb];
    [|cbn; intros E; discriminate E].
  refused_alike. reflexivity.
Qed.

Lemma validateVoterInfo3_relaxes_witness :
  Validation.valid (validateVoterInfo (H := isoDate) 1700000000000 Scenario.jane) = true
  /\ Validation.valid (validateVoterInfo3 Scenario.jane) = true.
Proof.
  split; [vm_compute; reflexivity|].
  apply (validateVoterInfo3_relaxes (H := isoDate) 1700000000000 Scenario.jane).
  vm_compute; reflexivity.
Defined.

(** X22. The two validators differ in the date of birth only: on a form
    with a date of birth, whatever the variant refuses the main server
    refuses with the same message. *)
Theorem validateVoterInfo3_same_refusal `{JsDate} (now : Z) (voterInfo : Body) :
  Js.truthy (prop voterInfo "dateOfBirth") = true ->
  Validation.valid (validateVoterInfo3 voterInfo) = false ->
  validateVoterInfo now voterInfo = validateVoterInfo3 voterInfo.
Proof.
  unfold validateVoterInfo, validateVoterInfo3. cbn zeta. intros ->.
  rewrite !orb_false_r.
  destruct (negb (Js.truthy (prop voterInfo "name")) || _ || _); [reflexivity|].
  repeat match goal with
         | |- context [if ?c then invalid ?m else _] =>
             destruct c; [intros _; reflexivity|]
         end.
  cbn. intros E; discriminate E.
Qed.

Lemma validateVoterInfo3_same_refusal_witness :
  Js.truthy (prop (<["name" := "J"]> Scenario.jane) "dateOfBirth") = true
  /\ Validation.valid (validateVoterInfo3 (<["name" := "J"]> Scenario.jane)) = false
  /\ validateVoterInfo (H := isoDate) 1700000000000 (<["name" := "J"]> Scenario.jane)
     = validateVoterInfo3 (<["name" := "J"]> Scenario.jane).
Proof.
  split; [vm_compute; reflexivity|]. split; [vm_compute; reflexivity|].
  apply (validateVoterInfo3_same_refusal (H := isoDate) 1700000000000
           (<["name" := "J"]> Scenario.jane)); vm_compute; reflexivity.
Defined.
